(** * Evaluation engine and dataset export of the aitelier web app

    Shallow embedding of the server actions of
    [packages/web/src/app/(app)/eval/actions.ts] ([startEvaluation],
    [generateCompletion], [getEvaluationItems], [saveEvaluationScore]),
    of [rateExample] ([rate/actions.ts]), of [formatExamplesToJSONL]
    (the Together.ai integration of the web app) and of the parts of the
    evaluation and split subsystem whose code is not in this tree, which
    are modelled from the spec and marked as such.

    Conventions.
    - A JavaScript string is its list of UTF-16 code units ([jsstr]).
    - A JavaScript value read from JSON is a [jsval]; numbers are kept as
      integers (no arithmetic is done on them here).
    - The database is a record of tables ([db]); a query is a [filter]
      over a table, rows are kept in insertion order; row-level security
      is not modelled (every query sees the rows of the store).
    - The completion provider (the [fetch] to Together.ai) is an oracle
      [provider] indexed by the position of the call in the invocation, so
      that two calls with the same arguments may answer differently. *)

From Stdlib Require Import List Bool Arith NArith ZArith Lia String Ascii.
From Stdlib Require QArith.
From Stdlib Require Import Sorting.Permutation Sorting.Sorted.
Import ListNotations.
Open Scope list_scope.
Set Warnings "-register-all".

(** ** JavaScript strings and values *)

Definition jsstr := list N.

Definition js (s : string) : jsstr :=
  map (fun c => N.of_nat (nat_of_ascii c)) (list_ascii_of_string s).
Arguments js s%_string.

Definition jseqb (a b : jsstr) : bool :=
  if list_eq_dec N.eq_dec a b then true else false.

(** Truthiness of a nullable string: [null], [undefined] and [""] are falsy. *)
Definition truthy (s : option jsstr) : bool :=
  match s with Some (_ :: _) => true | _ => false end.

Inductive jsval :=
| JSUndefined
| JSNull
| JSBool (b : bool)
| JSNum (z : Z)
| JSStr (s : jsstr)
| JSArr (l : list jsval)
| JSObj (kvs : list (jsstr * jsval)).

Definition nullish (v : jsval) : bool :=
  match v with JSUndefined | JSNull => true | _ => false end.

(** [a ?? d] *)
Definition coalesce (v d : jsval) : jsval := if nullish v then d else v.

(** Property keys: [x[n]] and [x.name]. *)
Inductive pkey := PIdx (n : nat) | PName (s : jsstr).

Fixpoint dec_aux (fuel n : nat) (acc : jsstr) : jsstr :=
  match fuel with
  | O => acc
  | S f =>
      let acc' := N.of_nat (48 + n mod 10) :: acc in
      if n <? 10 then acc' else dec_aux f (n / 10) acc'
  end.

Definition key_name (k : pkey) : jsstr :=
  match k with PIdx n => dec_aux (S n) n [] | PName s => s end.

(** [JSON.parse] keeps the last of duplicated keys. *)
Fixpoint obj_get (kvs : list (jsstr * jsval)) (k : jsstr) : option jsval :=
  match kvs with
  | [] => None
  | (k', v) :: r =>
      match obj_get r k with
      | Some x => Some x
      | None => if jseqb k k' then Some v else None
      end
  end.

(** [v[k]]: [None] is the [TypeError] raised on [undefined] and [null].
    Only the names the code reads are looked up ([choices], [message],
    [content]); none of them is inherited from a prototype. *)
Definition get_prop (v : jsval) (k : pkey) : option jsval :=
  match v with
  | JSUndefined | JSNull => None
  | JSObj kvs =>
      Some (match obj_get kvs (key_name k) with Some x => x | None => JSUndefined end)
  | JSArr l =>
      Some (match k with PIdx n => nth n l JSUndefined | PName _ => JSUndefined end)
  | JSStr s =>
      Some (match k with
            | PIdx n => match nth_error s n with Some c => JSStr [c] | None => JSUndefined end
            | PName _ => JSUndefined
            end)
  | JSBool _ | JSNum _ => Some JSUndefined
  end.

(** [v?.k] *)
Definition opt_get (v : jsval) (k : pkey) : jsval :=
  if nullish v then JSUndefined
  else match get_prop v k with Some x => x | None => JSUndefined end.

Inductive result (A E : Type) := Ok (a : A) | Err (e : E).
Arguments Ok {A E} a.
Arguments Err {A E} e.

(** ** Database rows ([001_initial_schema.sql]) *)

Inductive split_t := Train | Val.
Inductive run_status := Pending | Uploading | Queued | Training | Completed | Failed | Cancelled.
Inductive pref := PModel | PBaseline | PTie.

Record project := mkProject {
  project_id : jsstr;
  base_model : jsstr;
  system_prompt : option jsstr;
  api_key : option jsstr  (* [provider_config.api_key] *)
}.

Record example := mkExample {
  ex_id : jsstr;
  ex_project : jsstr;
  input : jsstr;
  output : jsstr;
  rewrite : option jsstr;
  rating : option Z;
  split : option split_t;
  created_at : Z;
  rated_by : option jsstr;
  rated_at : option Z
}.

Record training_run := mkRun {
  run_id : jsstr;
  run_project : jsstr;
  model_id : option jsstr;
  status : run_status;
  run_created_at : Z
}.

Record evaluation := mkEval {
  ev_id : jsstr;
  ev_project : jsstr;
  training_run_id : jsstr;
  example_id : jsstr;
  model_output : jsval;
  baseline_output : jsval;
  model_score : option Z;
  baseline_score : option Z;
  preferred : option pref;
  scored_by : option jsstr
}.

Record db := mkDb {
  user : option jsstr;  (* [supabase.auth.getUser()] *)
  projects : list project;
  examples : list example;
  training_runs : list training_run;
  evaluations : list evaluation;
  uuid_counter : nat  (* position in the supply of [gen_random_uuid()] *)
}.

Definition set_examples (st : db) (l : list example) : db :=
  mkDb (user st) (projects st) l (training_runs st) (evaluations st) (uuid_counter st).

Definition set_evaluations (st : db) (l : list evaluation) (c : nat) : db :=
  mkDb (user st) (projects st) (examples st) (training_runs st) l c.

Definition find_project (st : db) (pid : jsstr) : option project :=
  find (fun p => jseqb (project_id p) pid) (projects st).

(** ** Provider messages and responses *)

Inductive role := RSystem | RUser | RAssistant.

Record message := mkMessage { msg_role : role; msg_content : jsstr }.

Record response := mkResponse {
  resp_ok : bool;
  resp_text : jsstr;             (* [response.text()] *)
  resp_json : option jsval       (* [response.json()]; [None]: not JSON *)
}.

Inductive gen_error :=
| GenFetchFailed               (* [fetch] rejected *)
| GenApiError (body : jsstr)   (* [Together.ai API error: ...] *)
| GenBadJson                   (* [response.json()] rejected *)
| GenTypeError.                (* property read on [undefined] *)

(** ** Model selection ([getEvalSetupData]) *)

Inductive model_type := MBaseline | MFineTuned.

(** A [ModelOption]; the display [label] is left out. *)
Record model_option := mkOption {
  opt_id : jsstr;
  opt_type : model_type;
  opt_model_id : jsstr
}.

Record setup_data := mkSetup {
  modelOptions : list model_option;
  valExampleCount : nat;
  baseModel : jsstr;
  systemPrompt : option jsstr
}.

Inductive setup_error := SetupNotAuthenticated | SetupProjectNotFound.

Definition is_val (ex : example) : bool :=
  match split ex with Some Val => true | _ => false end.

(** [from('examples').eq('project_id', projectId).eq('split', 'val')] *)
Definition val_examples (st : db) (projectId : jsstr) : list example :=
  filter (fun ex => jseqb (ex_project ex) projectId && is_val ex) (examples st).

Fixpoint insert_desc (r : training_run) (l : list training_run) : list training_run :=
  match l with
  | [] => [r]
  | x :: t =>
      if (run_created_at x <? run_created_at r)%Z then r :: l else x :: insert_desc r t
  end.

(** [.order('created_at', { ascending: false })] *)
Definition sort_runs_desc (l : list training_run) : list training_run :=
  fold_right insert_desc [] l.

(** The order [sort_runs_desc] aims at: newer runs first. *)
Definition newest_first (a b : training_run) : Prop := (run_created_at b <= run_created_at a)%Z.

Definition is_completed (r : training_run) : bool :=
  match status r with Completed => true | _ => false end.

Definition has_model_id (r : training_run) : bool :=
  match model_id r with Some _ => true | None => false end.

Definition completed_runs (st : db) (projectId : jsstr) : list training_run :=
  sort_runs_desc
    (filter (fun r => jseqb (run_project r) projectId && is_completed r && has_model_id r)
            (training_runs st)).

Definition getEvalSetupData (st : db) (projectId : jsstr) : result setup_data setup_error :=
  match user st with
  | None => Err SetupNotAuthenticated
  | Some _ =>
      match find_project st projectId with
      | None => Err SetupProjectNotFound
      | Some project =>
          let runs := completed_runs st projectId in
          Ok (mkSetup
                (mkOption (js "baseline") MBaseline (base_model project)
                 :: map (fun r => mkOption (run_id r) MFineTuned
                                    (match model_id r with Some m => m | None => [] end))
                        runs)
                (List.length (val_examples st projectId))
                (base_model project)
                (system_prompt project))
      end
  end.

Definition find_option (opts : list model_option) (id : jsstr) : option model_option :=
  find (fun m => jseqb (opt_id m) id) opts.

Definition is_fine_tuned (m : model_option) : bool :=
  match opt_type m with MFineTuned => true | MBaseline => false end.

Definition is_baseline (m : model_option) : bool :=
  match opt_type m with MBaseline => true | MFineTuned => false end.

(** The messages sent for one example: [if (project.system_prompt)]. *)
Definition build_messages (sp : option jsstr) (inp : jsstr) : list message :=
  (if truthy sp then [mkMessage RSystem (match sp with Some s => s | None => [] end)] else [])
  ++ [mkMessage RUser inp].

(** An element of [evaluationRecords]. *)
Record eval_record := mkRecord {
  rec_project : jsstr;
  rec_training_run_id : jsstr;
  rec_example_id : jsstr;
  rec_model_output : jsval;
  rec_baseline_output : jsval
}.

Inductive start_error :=
| SNotAuthenticated
| SProjectNotFound
| SApiKeyNotConfigured
| SNoValidationExamples
| SFailedToGetModelData
| SInvalidModelSelection
| SFailedToGenerate (e : gen_error)
| SFailedToSave.

Inductive start_result := StartOk (evaluationId : jsstr) | StartErr (e : start_error).

(** Foreign keys of the [evaluations] table. *)
Definition fk_ok (st : db) (r : eval_record) : bool :=
  existsb (fun p => jseqb (project_id p) (rec_project r)) (projects st)
  && existsb (fun t => jseqb (run_id t) (rec_training_run_id r)) (training_runs st)
  && existsb (fun e => jseqb (ex_id e) (rec_example_id r)) (examples st).

Section Evaluation.

(** [fetch] of the chat completion endpoint, by call index, model id,
    messages and API key; [None] when the request itself fails. *)
Variable provider : nat -> jsstr -> list message -> jsstr -> option response.
(** The supply of [gen_random_uuid()]. *)
Variable gen_uuid : nat -> jsstr.

(** [generateCompletion], the [n]-th provider call of the invocation:
    [data.choices[0]?.message?.content ?? ''] *)
Definition generateCompletion (n : nat) (modelId : jsstr) (messages : list message)
    (apiKey : jsstr) : result jsval gen_error :=
  match provider n modelId messages apiKey with
  | None => Err GenFetchFailed
  | Some response =>
      if negb (resp_ok response) then Err (GenApiError (resp_text response))
      else match resp_json response with
           | None => Err GenBadJson
           | Some data =>
               match get_prop data (PName (js "choices")) with
               | None => Err GenTypeError
               | Some choices =>
                   match get_prop choices (PIdx 0) with
                   | None => Err GenTypeError
                   | Some c0 =>
                       Ok (coalesce (opt_get (opt_get c0 (PName (js "message")))
                                             (PName (js "content")))
                                    (JSStr []))
                   end
               end
           end
  end.

Section Generation.
Variables (projectId trainingRunId apiKey : jsstr) (sp : option jsstr)
          (modelA modelB : model_option).

(** The [for (const example of examples)] loop; [n] is the index of the
    next provider call.  The first failing call returns from the action. *)
Fixpoint gen_loop (n : nat) (exs : list example) : result (list eval_record) gen_error :=
  match exs with
  | [] => Ok []
  | example :: rest =>
      let messages := build_messages sp (input example) in
      match generateCompletion n (opt_model_id modelA) messages apiKey with
      | Err e => Err e
      | Ok modelAOutput =>
          match generateCompletion (S n) (opt_model_id modelB) messages apiKey with
          | Err e => Err e
          | Ok modelBOutput =>
              match gen_loop (S (S n)) rest with
              | Err e => Err e
              | Ok recs =>
                  Ok (mkRecord projectId trainingRunId (ex_id example)
                        (if is_fine_tuned modelA then modelAOutput else modelBOutput)
                        (if is_baseline modelA then modelAOutput else modelBOutput)
                      :: recs)
              end
          end
      end
  end.

End Generation.

(** Rows created by the bulk insert: fresh ids, no score, no preference. *)
Fixpoint rows_of (k : nat) (recs : list eval_record) : list evaluation :=
  match recs with
  | [] => []
  | r :: t =>
      mkEval (gen_uuid k) (rec_project r) (rec_training_run_id r) (rec_example_id r)
        (rec_model_output r) (rec_baseline_output r) None None None None
      :: rows_of (S k) t
  end.

(** [from('evaluations').insert(evaluationRecords)]: one statement, all
    rows or none. *)
Definition insert_evaluations (st : db) (recs : list eval_record) : option db :=
  if forallb (fk_ok st) recs
  then Some (set_evaluations st (evaluations st ++ rows_of (uuid_counter st) recs)
                             (uuid_counter st + List.length recs))
  else None.

Definition startEvaluation (st : db) (projectId modelAId modelBId : jsstr)
    : start_result * db :=
  match user st with
  | None => (StartErr SNotAuthenticated, st)
  | Some _ =>
  match find_project st projectId with
  | None => (StartErr SProjectNotFound, st)
  | Some project =>
  match api_key project with
  | None | Some [] => (StartErr SApiKeyNotConfigured, st)
  | Some apiKey =>
  match val_examples st projectId with
  | [] => (StartErr SNoValidationExamples, st)
  | examples =>
  match getEvalSetupData st projectId with
  | Err _ => (StartErr SFailedToGetModelData, st)
  | Ok setupData =>
  match find_option (modelOptions setupData) modelAId,
        find_option (modelOptions setupData) modelBId with
  | Some modelA, Some modelB =>
      let trainingRunId := if is_fine_tuned modelA then modelAId else modelBId in
      match gen_loop projectId trainingRunId apiKey (system_prompt project)
              modelA modelB 0 examples with
      | Err e => (StartErr (SFailedToGenerate e), st)
      | Ok evaluationRecords =>
          match evaluationRecords with
          | [] => (StartErr SFailedToSave, st)
          | first :: _ =>
              match insert_evaluations st evaluationRecords with
              | None => (StartErr SFailedToSave, st)
              | Some st' => (StartOk (rec_training_run_id first), st')
              end
          end
      end
  | _, _ => (StartErr SInvalidModelSelection, st)
  end
  end
  end
  end
  end
  end.

End Evaluation.

(** ** Blind A/B presentation ([getEvaluationItems]) *)

Record evaluation_item := mkItem {
  item_id : jsstr;
  item_example_id : jsstr;
  item_input : jsstr;
  output_a : jsval;
  output_b : jsval;
  is_a_model : bool;
  item_preferred : option pref;
  item_model_score : option Z;
  item_baseline_score : option Z
}.

(** [s.charCodeAt(i)]; [None] is [NaN]. *)
Definition charCodeAt (s : jsstr) (i : nat) : option N := nth_error s i.

(** [evalRecord.id.charCodeAt(0) % 2 === 0]; [NaN % 2] is [NaN]. *)
Definition isAModel_of (id : jsstr) : bool :=
  match charCodeAt id 0 with
  | Some c => (c mod 2 =? 0)%N
  | None => false
  end.

(** [new Map(entries).get(k)]: the last entry of a key wins. *)
Fixpoint map_get (kvs : list (jsstr * jsstr)) (k : jsstr) : option jsstr :=
  match kvs with
  | [] => None
  | (k', v) :: r =>
      match map_get r k with
      | Some x => Some x
      | None => if jseqb k k' then Some v else None
      end
  end.

Definition empty_str : jsval := JSStr [].

(** The callback of [evals.map]. *)
Definition mk_item (exampleMap : list (jsstr * jsstr)) (evalRecord : evaluation)
    : evaluation_item :=
  let input := match map_get exampleMap (example_id evalRecord) with
               | Some s => s | None => [] end in
  let isAModel := isAModel_of (ev_id evalRecord) in
  mkItem (ev_id evalRecord) (example_id evalRecord) input
    (if isAModel then coalesce (model_output evalRecord) empty_str
     else coalesce (baseline_output evalRecord) empty_str)
    (if isAModel then coalesce (baseline_output evalRecord) empty_str
     else coalesce (model_output evalRecord) empty_str)
    isAModel (preferred evalRecord) (model_score evalRecord) (baseline_score evalRecord).

Inductive items_error := ItemsNotAuthenticated.

(** [from('evaluations').eq('training_run_id', trainingRunId)] *)
Definition run_rows (st : db) (trainingRunId : jsstr) : list evaluation :=
  filter (fun r => jseqb (training_run_id r) trainingRunId) (evaluations st).

Definition getEvaluationItems (st : db) (trainingRunId : jsstr)
    : result (list evaluation_item) items_error :=
  match user st with
  | None => Err ItemsNotAuthenticated
  | Some _ =>
      let evals := run_rows st trainingRunId in
      let exampleIds := map example_id evals in
      let exs := filter (fun e => existsb (jseqb (ex_id e)) exampleIds) (examples st) in
      let exampleMap := map (fun e => (ex_id e, input e)) exs in
      Ok (map (mk_item exampleMap) evals)
  end.

(** ** Scoring ([saveEvaluationScore]) *)

Inductive ab_pref := PrefA | PrefB | PrefTie.

Record update_data := mkUpdate {
  upd_preferred : pref;
  upd_scored_by : jsstr;
  upd_model_score : option Z;     (* absent key when [None] *)
  upd_baseline_score : option Z
}.

(** Convert A/B preference to model/baseline preference. *)
Definition modelPreferred_of (isAModel : bool) (preferred : ab_pref) : pref :=
  match preferred with
  | PrefTie => PTie
  | PrefA => if isAModel then PModel else PBaseline
  | PrefB => if isAModel then PBaseline else PModel
  end.

Definition build_update (uid : jsstr) (isAModel : bool) (preferred : ab_pref)
    (scoreA scoreB : option Z) : update_data :=
  let modelScore := if isAModel then scoreA else scoreB in
  let baselineScore := if isAModel then scoreB else scoreA in
  mkUpdate (modelPreferred_of isAModel preferred) uid modelScore baselineScore.

(** An SQL [UPDATE] of one row: only the keys present are written. *)
Definition apply_update (u : update_data) (r : evaluation) : evaluation :=
  mkEval (ev_id r) (ev_project r) (training_run_id r) (example_id r)
    (model_output r) (baseline_output r)
    (match upd_model_score u with Some z => Some z | None => model_score r end)
    (match upd_baseline_score u with Some z => Some z | None => baseline_score r end)
    (Some (upd_preferred u)) (Some (upd_scored_by u)).

(** Check constraint [score >= 1 and score <= 10]. *)
Definition score_ok (o : option Z) : bool :=
  match o with None => true | Some z => (1 <=? z)%Z && (z <=? 10)%Z end.

Inductive save_result := SaveOk | SaveErr (e : jsstr).

Definition saveEvaluationScore (st : db) (evaluationId : jsstr) (isAModel : bool)
    (preferred : ab_pref) (scoreA scoreB : option Z) : save_result * db :=
  match user st with
  | None => (SaveErr (js "Not authenticated"), st)
  | Some uid =>
      let updateData := build_update uid isAModel preferred scoreA scoreB in
      if existsb (fun r => jseqb (ev_id r) evaluationId) (evaluations st)
         && negb (score_ok (upd_model_score updateData)
                  && score_ok (upd_baseline_score updateData))
      then (SaveErr (js "check constraint violated"), st)
      else (SaveOk,
            set_evaluations st
              (map (fun r => if jseqb (ev_id r) evaluationId then apply_update updateData r else r)
                   (evaluations st))
              (uuid_counter st))
  end.

(** ** Other writes of the web app to [examples] and [evaluations] *)

Definition ex_rewrite : example -> option jsstr := rewrite.

(** [rateExample] of [rate/actions.ts]; [now] is [new Date()]. *)
Definition rateExample (st : db) (exampleId : jsstr) (rating : Z) (rewrite : option jsstr)
    (now : Z) : result unit jsstr * db :=
  match user st with
  | None => (Err (js "Not authenticated"), st)
  | Some uid =>
      let upd (e : example) : example :=
        mkExample (ex_id e) (ex_project e) (input e) (output e)
          (match rewrite with Some w => Some w | None => ex_rewrite e end)
          (Some rating) (split e) (created_at e) (Some uid) (Some now) in
      if existsb (fun e => jseqb (ex_id e) exampleId) (examples st)
         && negb (score_ok (Some rating))
      then (Err (js "check constraint violated"), st)
      else (Ok tt, set_examples st
                     (map (fun e => if jseqb (ex_id e) exampleId then upd e else e)
                          (examples st)))
  end.

Definition set_projects (st : db) (l : list project) : db :=
  mkDb (user st) l (examples st) (training_runs st) (evaluations st) (uuid_counter st).

Definition set_training_runs (st : db) (l : list training_run) : db :=
  mkDb (user st) (projects st) (examples st) l (evaluations st) (uuid_counter st).

Definition set_user (st : db) (u : option jsstr) : db :=
  mkDb u (projects st) (examples st) (training_runs st) (evaluations st) (uuid_counter st).

(** [deleteProject] of the settings actions, with the [on delete cascade]
    foreign keys of the schema. *)
Definition deleteProject (st : db) (projectId : jsstr) : result unit jsstr * db :=
  match user st with
  | None => (Err (js "Not authenticated"), st)
  | Some _ =>
      let gone_ex := filter (fun e => jseqb (ex_project e) projectId) (examples st) in
      let gone_runs := filter (fun r => jseqb (run_project r) projectId) (training_runs st) in
      let gone_ev (v : evaluation) : bool :=
        jseqb (ev_project v) projectId
        || existsb (fun e => jseqb (ex_id e) (example_id v)) gone_ex
        || existsb (fun r => jseqb (run_id r) (training_run_id v)) gone_runs in
      (Ok tt,
       mkDb (user st)
         (filter (fun p => negb (jseqb (project_id p) projectId)) (projects st))
         (filter (fun e => negb (jseqb (ex_project e) projectId)) (examples st))
         (filter (fun r => negb (jseqb (run_project r) projectId)) (training_runs st))
         (filter (fun v => negb (gone_ev v)) (evaluations st))
         (uuid_counter st))
  end.

(** ** Split planner *)

(** Modelled from the spec: the split planner (SplitPlanner, section 4.1)
    of the [ait split] command, whose code is not in this tree.  An
    example is locked when its [split] is set and an evaluation
    references it; a targeted reassignment of a locked example is a
    [Conflict]; a planning pass leaves locked examples out of its pool. *)
Definition referenced (st : db) (id : jsstr) : bool :=
  existsb (fun v => jseqb (example_id v) id) (evaluations st).

Definition split_set (ex : example) : bool :=
  match split ex with Some _ => true | None => false end.

Definition locked_id (st : db) (id : jsstr) : bool :=
  existsb (fun ex => jseqb (ex_id ex) id && split_set ex) (examples st) && referenced st id.

Definition with_split (ex : example) (s : option split_t) : example :=
  mkExample (ex_id ex) (ex_project ex) (input ex) (output ex) (ex_rewrite ex)
    (rating ex) s (created_at ex) (rated_by ex) (rated_at ex).

Inductive split_error := SplitNotFound | SplitConflict (id : jsstr).

Definition resplit (st : db) (id : jsstr) (s : split_t) : result unit split_error * db :=
  if negb (existsb (fun ex => jseqb (ex_id ex) id) (examples st)) then (Err SplitNotFound, st)
  else if locked_id st id then (Err (SplitConflict id), st)
  else (Ok tt, set_examples st
                 (map (fun ex => if jseqb (ex_id ex) id then with_split ex (Some s) else ex)
                      (examples st))).

(** Target validation fraction [val_num / val_den] and the bucket of a
    rating (the rating itself, or quality / non-quality). *)
Record plan_config := mkPlanConfig {
  val_num : nat;
  val_den : nat;
  bucket_of : Z -> Z
}.

Fixpoint insert_asc (e : example) (l : list example) : list example :=
  match l with
  | [] => [e]
  | x :: t => if (created_at e <? created_at x)%Z then e :: l else x :: insert_asc e t
  end.

Definition sort_by_creation (l : list example) : list example := fold_right insert_asc [] l.

Fixpoint dedup_Z (l : list Z) : list Z :=
  match l with
  | [] => []
  | x :: t => x :: filter (fun y => negb (Z.eqb x y)) (dedup_Z t)
  end.

Definition rating_bucket (cfg : plan_config) (ex : example) : Z :=
  match rating ex with Some r => bucket_of cfg r | None => 0%Z end.

(** [round(count * p)], half up. *)
Definition val_count (cfg : plan_config) (count : nat) : nat :=
  (2 * count * val_num cfg + val_den cfg) / (2 * val_den cfg).

(** Positions [0, 1/p, 2/p, ...] of a bucket go to [val]. *)
Definition val_position (cfg : plan_config) (count i : nat) : bool :=
  existsb (fun j => Nat.eqb i (j * val_den cfg / val_num cfg)) (seq 0 (val_count cfg count)).

Fixpoint assign_bucket (cfg : plan_config) (count i : nat) (members : list example)
    : list (jsstr * split_t) :=
  match members with
  | [] => []
  | ex :: t =>
      (ex_id ex, if val_position cfg count i then Val else Train)
      :: assign_bucket cfg count (S i) t
  end.

Record plan_report := mkPlanReport {
  nothing_to_split : bool;
  assignment : list (jsstr * split_t)
}.

(** One planning pass over a project.  Rated, unlocked examples form the
    pool; without [full_reset] only unassigned ones do (incremental pass). *)
Definition plan_split (st : db) (projectId : jsstr) (cfg : plan_config) (full_reset : bool)
    : plan_report * db :=
  let pool := filter (fun ex => jseqb (ex_project ex) projectId
                                && match rating ex with Some _ => true | None => false end
                                && negb (locked_id st (ex_id ex))
                                && (full_reset || negb (split_set ex)))
                     (sort_by_creation (examples st)) in
  let keys := dedup_Z (map (rating_bucket cfg) pool) in
  let assignment :=
    flat_map (fun k =>
                let members := filter (fun ex => Z.eqb (rating_bucket cfg ex) k) pool in
                assign_bucket cfg (List.length members) 0 members) keys in
  let lookup (ex : example) : option split_t :=
    option_map snd (find (fun a => jseqb (fst a) (ex_id ex)) assignment) in
  let in_pool (ex : example) : bool :=
    existsb (fun p => jseqb (ex_id p) (ex_id ex) && jseqb (ex_project p) (ex_project ex)) pool in
  (mkPlanReport (match pool with [] => true | _ => false end) assignment,
   set_examples st
     (map (fun ex => if in_pool ex
                     then match lookup ex with Some s => with_split ex (Some s) | None => ex end
                     else ex)
          (examples st))).

(** ** Aggregate *)

(** Modelled from the spec: [getEvaluationResults] (Aggregate, section
    4.2), which the results page imports from the eval actions but whose
    code is not in this tree.  An average over no score is absent. *)
Record eval_results := mkResults {
  modelWins : nat;
  baselineWins : nat;
  ties : nat;
  avgModelScore : option QArith_base.Q;
  avgBaselineScore : option QArith_base.Q;
  items : list evaluation
}.

Definition mean (l : list Z) : option QArith_base.Q :=
  match l with
  | [] => None
  | _ => Some (QArith_base.Qmake (fold_right Z.add 0%Z l) (Pos.of_nat (List.length l)))
  end.

Definition count_pref (p : pref) (rows : list evaluation) : nat :=
  List.length (filter (fun r => match preferred r, p with
                                | Some PModel, PModel | Some PBaseline, PBaseline
                                | Some PTie, PTie => true
                                | _, _ => false end) rows).

Definition somes (l : list (option Z)) : list Z :=
  flat_map (fun o => match o with Some z => [z] | None => [] end) l.

Definition aggregate (rows : list evaluation) : eval_results :=
  mkResults (count_pref PModel rows) (count_pref PBaseline rows) (count_pref PTie rows)
    (mean (somes (map model_score rows))) (mean (somes (map baseline_score rows))) rows.

Definition getEvaluationResults (st : db) (evaluationId : jsstr) : eval_results :=
  aggregate (run_rows st evaluationId).

(** ** Operations on the store *)

(** Every write to the store: the actions of the web app that write
    [examples] or [evaluations], the spec-modelled split commands, and
    the writes that touch only [projects] (project creation and settings),
    only [training_runs] (the training flow) or only the session. *)
Inductive step : db -> db -> Prop :=
| StepStart provider gen_uuid st pid a b :
    step st (snd (startEvaluation provider gen_uuid st pid a b))
| StepScore st id isA p sa sb :
    step st (snd (saveEvaluationScore st id isA p sa sb))
| StepRate st id r w now :
    step st (snd (rateExample st id r w now))
| StepDelete st pid :
    step st (snd (deleteProject st pid))
| StepResplit st id s :
    step st (snd (resplit st id s))
| StepPlan st pid cfg full :
    step st (snd (plan_split st pid cfg full))
| StepProjects st ps :
    step st (set_projects st ps)
| StepRuns st rs :
    step st (set_training_runs st rs)
| StepSession st u :
    step st (set_user st u).

(** ** JSONL export ([formatExamplesToJSONL]) *)

Inductive json := JStr (s : jsstr) | JArr (l : list json) | JObj (kvs : list (jsstr * json)).

Definition hex_digit (d : N) : N := if (d <? 10)%N then (48 + d)%N else (87 + d)%N.

(** [\uXXXX], lowercase hexadecimal. *)
Definition unicode_escape (c : N) : jsstr :=
  [92; 117; hex_digit (c / 4096 mod 16); hex_digit (c / 256 mod 16);
   hex_digit (c / 16 mod 16); hex_digit (c mod 16)]%N.

Definition is_high (c : N) : bool := (55296 <=? c)%N && (c <=? 56319)%N.
Definition is_low (c : N) : bool := (56320 <=? c)%N && (c <=? 57343)%N.

Definition escape_unit (c : N) : jsstr :=
  if (c =? 8)%N then [92; 98]%N
  else if (c =? 9)%N then [92; 116]%N
  else if (c =? 10)%N then [92; 110]%N
  else if (c =? 12)%N then [92; 102]%N
  else if (c =? 13)%N then [92; 114]%N
  else if (c =? 34)%N then [92; 34]%N
  else if (c =? 92)%N then [92; 92]%N
  else if (c <? 32)%N then unicode_escape c
  else [c].

(** QuoteJSONString without its quotes: code points, lone surrogates escaped. *)
Fixpoint escape (s : jsstr) : jsstr :=
  match s with
  | [] => []
  | c :: rest =>
      if is_high c then
        match rest with
        | d :: rest' => if is_low d then c :: d :: escape rest' else unicode_escape c ++ escape rest
        | [] => unicode_escape c
        end
      else if is_low c then unicode_escape c ++ escape rest
      else escape_unit c ++ escape rest
  end.

Definition quote (s : jsstr) : jsstr := [34%N] ++ escape s ++ [34%N].

Fixpoint join (sep : jsstr) (l : list jsstr) : jsstr :=
  match l with
  | [] => []
  | [x] => x
  | x :: t => x ++ sep ++ join sep t
  end.

(** [JSON.stringify] *)
Fixpoint stringify (j : json) : jsstr :=
  match j with
  | JStr s => quote s
  | JArr l => [91%N] ++ join [44%N] (map stringify l) ++ [93%N]
  | JObj kvs =>
      [123%N] ++ join [44%N] (map (fun kv => quote (fst kv) ++ [58%N] ++ stringify (snd kv)) kvs)
      ++ [125%N]
  end.

Record training_example := mkTrainingExample {
  te_input : jsstr;
  te_output : jsstr;
  te_rewrite : option jsstr  (* [rewrite?: string | null] *)
}.

Definition role_name (r : role) : jsstr :=
  match r with RSystem => js "system" | RUser => js "user" | RAssistant => js "assistant" end.

Definition message_json (m : message) : json :=
  JObj [(js "role", JStr (role_name (msg_role m))); (js "content", JStr (msg_content m))].

Definition formatExamplesToJSONL (examples : list training_example) (systemPrompt : option jsstr)
    : jsstr :=
  let lines := map (fun example =>
    let messages :=
      (if truthy systemPrompt
       then [mkMessage RSystem (match systemPrompt with Some s => s | None => [] end)]
       else [])
      ++ [mkMessage RUser (te_input example);
          mkMessage RAssistant (match te_rewrite example with
                                | Some r => r | None => te_output example end)] in
    stringify (JObj [(js "messages", JArr (map message_json messages))])) examples in
  join [10%N] lines.

(** Lines of a text: the pieces between the [\n] code units. *)
Fixpoint split_lines (s : jsstr) : list jsstr :=
  match s with
  | [] => [[]]
  | c :: t =>
      match split_lines t with
      | [] => [[c]]
      | l :: ls => if (c =? 10)%N then [] :: l :: ls else (c :: l) :: ls
      end
  end.

(** ** Reading the export back ([JSON.parse]) *)

(** [JSON.parse] on the texts [JSON.stringify] writes (no whitespace
    between tokens): a decoder of the same [json] values.  A string
    decodes to its UTF-16 code units, a [\uXXXX] escape to one unit. *)
Definition hex_value (c : N) : option N :=
  if (48 <=? c)%N && (c <=? 57)%N then Some (c - 48)%N
  else if (97 <=? c)%N && (c <=? 102)%N then Some (c - 87)%N
  else if (65 <=? c)%N && (c <=? 70)%N then Some (c - 55)%N
  else None.

Definition short_escape (x : N) : option N :=
  if (x =? 34)%N then Some 34%N
  else if (x =? 92)%N then Some 92%N
  else if (x =? 47)%N then Some 47%N
  else if (x =? 98)%N then Some 8%N
  else if (x =? 102)%N then Some 12%N
  else if (x =? 110)%N then Some 10%N
  else if (x =? 114)%N then Some 13%N
  else if (x =? 116)%N then Some 9%N
  else None.

(** The characters of a string after its opening quote: the decoded
    string and what follows the closing quote. *)
Fixpoint parse_chars (s : jsstr) : option (jsstr * jsstr) :=
  match s with
  | [] => None
  | c :: t =>
      if (c =? 34)%N then Some ([], t)
      else if (c =? 92)%N then
        match t with
        | x :: t' =>
            if (x =? 117)%N then
              match t' with
              | a :: b :: c' :: d :: rest =>
                  match hex_value a, hex_value b, hex_value c', hex_value d with
                  | Some va, Some vb, Some vc, Some vd =>
                      match parse_chars rest with
                      | Some (r, rem) => Some ((4096 * va + 256 * vb + 16 * vc + vd)%N :: r, rem)
                      | None => None
                      end
                  | _, _, _, _ => None
                  end
              | _ => None
              end
            else
              match short_escape x with
              | Some v =>
                  match parse_chars t' with
                  | Some (r, rem) => Some (v :: r, rem)
                  | None => None
                  end
              | None => None
              end
        | [] => None
        end
      else if (c <? 32)%N then None
      else
        match parse_chars t with
        | Some (r, rem) => Some (c :: r, rem)
        | None => None
        end
  end.

(** A value, the elements of an array after its [\[], the members of an
    object after its [{]; [n] bounds the nesting. *)
Fixpoint parse_value (n : nat) (s : jsstr) {struct n} : option (json * jsstr) :=
  match n with
  | O => None
  | S m =>
      match s with
      | c :: t =>
          if (c =? 34)%N then
            match parse_chars t with
            | Some (str, rem) => Some (JStr str, rem)
            | None => None
            end
          else if (c =? 91)%N then
            match t with
            | x :: t' =>
                if (x =? 93)%N then Some (JArr [], t')
                else match parse_elems m t with
                     | Some (l, rem) => Some (JArr l, rem)
                     | None => None
                     end
            | [] => None
            end
          else if (c =? 123)%N then
            match t with
            | x :: t' =>
                if (x =? 125)%N then Some (JObj [], t')
                else match parse_members m t with
                     | Some (kvs, rem) => Some (JObj kvs, rem)
                     | None => None
                     end
            | [] => None
            end
          else None
      | [] => None
      end
  end
with parse_elems (n : nat) (s : jsstr) {struct n} : option (list json * jsstr) :=
  match n with
  | O => None
  | S m =>
      match parse_value m s with
      | Some (v, c :: r) =>
          if (c =? 44)%N then
            match parse_elems m r with
            | Some (l, rem) => Some (v :: l, rem)
            | None => None
            end
          else if (c =? 93)%N then Some ([v], r)
          else None
      | _ => None
      end
  end
with parse_members (n : nat) (s : jsstr) {struct n} : option (list (jsstr * json) * jsstr) :=
  match n with
  | O => None
  | S m =>
      match s with
      | c :: t =>
          if (c =? 34)%N then
            match parse_chars t with
            | Some (k, x :: r) =>
                if (x =? 58)%N then
                  match parse_value m r with
                  | Some (v, y :: r') =>
                      if (y =? 44)%N then
                        match parse_members m r' with
                        | Some (kvs, rem) => Some ((k, v) :: kvs, rem)
                        | None => None
                        end
                      else if (y =? 125)%N then Some ([(k, v)], r')
                      else None
                  | _ => None
                  end
                else None
            | _ => None
            end
          else None
      | [] => None
      end
  end.

(** [JSON.parse]: one value and nothing after it. *)
Definition json_parse (s : jsstr) : option json :=
  match parse_value (S (List.length s)) s with
  | Some (j, []) => Some j
  | _ => None
  end.

(** ** The comparison screen ([ComparisonInterface]) *)

(** [items.findIndex((item, idx) => ...)] from position [i]; [None] is [-1]. *)
Fixpoint find_index_from {A} (p : nat -> A -> bool) (i : nat) (l : list A) : option nat :=
  match l with
  | [] => None
  | x :: t => if p i x then Some i else find_index_from p (S i) t
  end.

Definition findIndex {A} (p : nat -> A -> bool) (l : list A) : option nat :=
  find_index_from p 0 l.

(** [items.every((item, idx) => ...)] from position [i]. *)
Fixpoint every_from {A} (p : nat -> A -> bool) (i : nat) (l : list A) : bool :=
  match l with
  | [] => true
  | x :: t => p i x && every_from p (S i) t
  end.

(** [item.preferred === null] *)
Definition is_unscored (it : evaluation_item) : bool :=
  match item_preferred it with None => true | Some _ => false end.

(** [getInitialIndex] *)
Definition getInitialIndex (items : list evaluation_item) : nat :=
  match findIndex (fun _ item => is_unscored item) items with
  | Some nextUnscoredIndex => nextUnscoredIndex
  | None => 0
  end.

(** What the screen does after a successful save. *)
Inductive after_save := Redirect (path : jsstr) | MoveTo (i : nat) | Stay.

(** The [result.success] branch of [handlePreference]; [items] is the
    list the page was rendered with, which the screen never reloads. *)
Definition after_success (items : list evaluation_item) (currentIndex : nat)
    (evaluationId : jsstr) : after_save :=
  let allScored :=
    every_from (fun idx item => Nat.eqb idx currentIndex || negb (is_unscored item)) 0 items in
  if allScored then Redirect (js "/eval/" ++ evaluationId ++ js "/results")
  else
    match findIndex (fun idx item => Nat.ltb currentIndex idx && is_unscored item) items with
    | Some nextUnscoredIndex => MoveTo nextUnscoredIndex
    | None =>
        match findIndex (fun _ item => is_unscored item) items with
        | Some firstUnscored => MoveTo firstUnscored
        | None => Stay
        end
    end.

Inductive ui_outcome :=
| UiNoop            (* [if (isSaving) return;] *)
| UiTypeError       (* [currentItem.id] on [undefined] *)
| UiSaveFailed      (* [result.success] false: nothing else happens *)
| UiAfter (a : after_save).

(** [handlePreference], with the [isSaving] its callback closed over. *)
Definition handlePreference (st : db) (items : list evaluation_item) (currentIndex : nat)
    (isSaving : bool) (evaluationId : jsstr) (preferred : ab_pref) (scoreA scoreB : option Z)
    : ui_outcome * db :=
  if isSaving then (UiNoop, st)
  else
    match nth_error items currentIndex with
    | None => (UiTypeError, st)
    | Some currentItem =>
        let (result, st') :=
          saveEvaluationScore st (item_id currentItem) (is_a_model currentItem) preferred
            scoreA scoreB in
        match result with
        | SaveOk => (UiAfter (after_success items currentIndex evaluationId), st')
        | SaveErr _ => (UiSaveFailed, st')
        end
    end.

(** A sequence of choices made on the screen, one after the other once
    the previous save has returned: the index moves as [setCurrentIndex]
    does, [items] stays the list the page was rendered with, and a
    redirect leaves the screen. *)
Fixpoint session (st : db) (items : list evaluation_item) (currentIndex : nat)
    (evaluationId : jsstr) (choices : list (ab_pref * option Z * option Z))
    : list ui_outcome * db :=
  match choices with
  | [] => ([], st)
  | (preferred, scoreA, scoreB) :: rest =>
      let (o, st') := handlePreference st items currentIndex false evaluationId preferred scoreA scoreB in
      match o with
      | UiAfter (Redirect _) => ([o], st')
      | UiAfter (MoveTo j) =>
          let (os, st'') := session st' items j evaluationId rest in (o :: os, st'')
      | _ =>
          let (os, st'') := session st' items currentIndex evaluationId rest in (o :: os, st'')
      end
  end.

(** ** The evaluation setup screen ([EvalSetup]) *)

Record setup_ui := mkSetupUi {
  ui_modelA : jsstr;
  ui_modelB : jsstr;
  ui_isGenerating : bool;
  ui_error : option (option start_error)  (* [Some None]: [Failed to start evaluation] *)
}.

(** [useState('')], [useState('baseline')], [useState(false)], [useState(null)] *)
Definition initial_setup_ui : setup_ui := mkSetupUi [] (js "baseline") false None.

Definition nonempty (s : jsstr) : bool := match s with [] => false | _ => true end.

(** [modelA && modelB && modelA !== modelB && valExampleCount > 0 && !isGenerating] *)
Definition canStart (data : setup_data) (s : setup_ui) : bool :=
  nonempty (ui_modelA s) && nonempty (ui_modelB s) && negb (jseqb (ui_modelA s) (ui_modelB s))
  && Nat.ltb 0 (valExampleCount data) && negb (ui_isGenerating s).

(** [handleStartEvaluation]: the path pushed to the router, if any, the
    new screen state and the store. *)
Definition handleStartEvaluation
    (provider : nat -> jsstr -> list message -> jsstr -> option response)
    (gen_uuid : nat -> jsstr) (st : db) (projectId : jsstr) (data : setup_data) (s : setup_ui)
    : option jsstr * setup_ui * db :=
  if negb (canStart data s) then (None, s, st)
  else
    let (result, st') := startEvaluation provider gen_uuid st projectId (ui_modelA s) (ui_modelB s) in
    match result with
    | StartOk evaluationId =>
        if nonempty evaluationId
        then (Some (js "/eval/" ++ evaluationId), mkSetupUi (ui_modelA s) (ui_modelB s) true None, st')
        else (None, mkSetupUi (ui_modelA s) (ui_modelB s) false (Some None), st')
    | StartErr e => (None, mkSetupUi (ui_modelA s) (ui_modelB s) false (Some (Some e)), st')
    end.

(** [modelOptions.find((m) => m.type === 'fine-tuned')?.id ?? ''] *)
Definition defaultModelA (data : setup_data) : jsstr :=
  match find is_fine_tuned (modelOptions data) with
  | Some m => opt_id m
  | None => []
  end.

(** The value of the Model A selector: [modelA || defaultModelA]. *)
Definition shownModelA (data : setup_data) (s : setup_ui) : jsstr :=
  if nonempty (ui_modelA s) then ui_modelA s else defaultModelA data.


(** ** The rating queue ([getExamples] of [rate/actions.ts]) *)

Inductive filter_type := FUnrated | FAll | FBelowThreshold | FNeedsRewrite.

(** The [where] clause a filter adds to the [examples] query. *)
Definition example_filter (filter : filter_type) (threshold : Z) (e : example) : bool :=
  match filter with
  | FUnrated => match rating e with None => true | Some _ => false end
  | FBelowThreshold => match rating e with Some r => (r <? threshold)%Z | None => false end
  | FNeedsRewrite =>
      match rating e, rewrite e with Some _, None => true | _, _ => false end
  | FAll => true
  end.

(** The rows [getExamples] returns; [quality_threshold] is what the
    [projects] query read ([None]: no row).  The order the [sort]
    argument asks for is not modelled: the rows are listed in store order. *)
Definition getExamples (st : db) (projectId : jsstr) (quality_threshold : option Z)
    (filter : filter_type) : result (list example) jsstr :=
  match user st with
  | None => Err (js "Not authenticated")
  | Some _ =>
      let threshold := match quality_threshold with Some t => t | None => 8%Z end in
      Ok (List.filter (fun e => jseqb (ex_project e) projectId && example_filter filter threshold e)
                      (examples st))
  end.

(** ** Model listing ([fetchModels] of the Together.ai integration) *)

(** An element of the [/models] reply, as the code reads it. *)
Record together_model := mkTogetherModel {
  tm_id : jsstr;
  tm_display_name : option jsstr;  (* [undefined], [null] or a string *)
  tm_context_length : Z
}.

Record chat_model := mkChatModel {
  cm_id : jsstr;
  cm_display_name : jsstr;
  cm_context_length : Z;
  cm_recommended : bool
}.

Definition RECOMMENDED_MODELS : list jsstr :=
  [js "meta-llama/Llama-3.3-70B-Instruct-Turbo";
   js "meta-llama/Llama-3.2-11B-Vision-Instruct-Turbo";
   js "mistralai/Mistral-7B-Instruct-v0.3"].

Fixpoint is_prefix (p s : jsstr) : bool :=
  match p, s with
  | [], _ => true
  | c :: p', d :: s' => (c =? d)%N && is_prefix p' s'
  | _ :: _, [] => false
  end.

(** [s.includes(pat)] *)
Fixpoint includes (s pat : jsstr) : bool :=
  is_prefix pat s || match s with [] => false | _ :: t => includes t pat end.

(** [s.split('/').pop()]: the text after the last [/]. *)
Fixpoint last_segment_aux (s acc : jsstr) : jsstr :=
  match s with
  | [] => rev acc
  | c :: t => if (c =? 47)%N then last_segment_aux t [] else last_segment_aux t (c :: acc)
  end.

Definition last_segment (s : jsstr) : jsstr := last_segment_aux s [].

Definition is_chat_model (m : together_model) : bool :=
  includes (tm_id m) (js "Instruct") || includes (tm_id m) (js "chat") || includes (tm_id m) (js "Chat").

(** The [.map] callback: [m.display_name || m.id.split('/').pop() || m.id]. *)
Definition to_chat_model (m : together_model) : chat_model :=
  mkChatModel (tm_id m)
    (if truthy (tm_display_name m) then match tm_display_name m with Some d => d | None => [] end
     else if nonempty (last_segment (tm_id m)) then last_segment (tm_id m)
     else tm_id m)
    (tm_context_length m)
    (existsb (jseqb (tm_id m)) RECOMMENDED_MODELS).

Section FetchModels.

(** [a.display_name.localeCompare(b.display_name)]: locale dependent. *)
Variable localeCompare : jsstr -> jsstr -> Z.

(** The comparator given to [.sort]. *)
Definition model_cmp (a b : chat_model) : Z :=
  if cm_recommended a && negb (cm_recommended b) then (-1)%Z
  else if negb (cm_recommended a) && cm_recommended b then 1%Z
  else localeCompare (cm_display_name a) (cm_display_name b).

(** [Array.prototype.sort] is stable; with a consistent comparator its
    result is the one of a stable insertion sort. *)
Fixpoint insert_sorted (x : chat_model) (l : list chat_model) : list chat_model :=
  match l with
  | [] => [x]
  | y :: t => if (0 <? model_cmp y x)%Z then x :: l else y :: insert_sorted x t
  end.

Definition sort_models (l : list chat_model) : list chat_model :=
  fold_left (fun acc x => insert_sorted x acc) l [].

(** The [/models] request: [None] when [fetch] rejects; otherwise
    [response.ok] and the decoded body ([None] when it is not a list of
    objects with a string [id], which makes the callbacks throw). *)
Definition fetchModels (response : option (bool * option (list together_model)))
    : list chat_model * option jsstr :=
  match response with
  | None => ([], Some (js "Failed to connect to Together.ai"))
  | Some (false, _) => ([], Some (js "Failed to fetch models"))
  | Some (true, None) => ([], Some (js "Failed to connect to Together.ai"))
  | Some (true, Some data) =>
      (sort_models (map to_chat_model (List.filter is_chat_model data)), None)
  end.

End FetchModels.

(** A list of models split into its recommended ones, then the others. *)
Definition rec_split (l : list chat_model) : Prop :=
  exists l1 l2, l = l1 ++ l2 /\ Forall (fun m => cm_recommended m = true) l1 /\
                Forall (fun m => cm_recommended m = false) l2.

(** ** Concrete stores and providers *)

Definition fx_body (c : jsval) : jsval :=
  JSObj [(js "choices", JSArr [JSObj [(js "message", JSObj [(js "content", c)])]])].

(** Answers with the model id followed by the call index. *)
Definition fx_provider (n : nat) (m : jsstr) (_ : list message) (_ : jsstr) : option response :=
  Some (mkResponse true [] (Some (fx_body (JSStr (m ++ [N.of_nat (48 + n)]))))).

(** Same, but the [k]-th call gets an HTTP error. *)
Definition fx_provider_fail_at (k n : nat) (m : jsstr) (msgs : list message) (key : jsstr)
    : option response :=
  if Nat.eqb n k then Some (mkResponse false (js "rate limited") None)
  else fx_provider n m msgs key.

(** Answers HTTP 200 with the given JSON body. *)
Definition fx_provider_body (data : jsval) (_ : nat) (_ : jsstr) (_ : list message) (_ : jsstr)
    : option response :=
  Some (mkResponse true [] (Some data)).

Definition fx_uuid (n : nat) : jsstr := js "u" ++ [N.of_nat (48 + n)].

Definition fx_example (id : string) (r : Z) (s : option split_t) (t : Z) : example :=
  mkExample (js id) (js "p") (js "question " ++ js id) (js "answer " ++ js id) None
    (Some r) s t None None.

Definition fx_db : db :=
  mkDb (Some (js "rater"))
    [mkProject (js "p") (js "base") (Some (js "Be brief.")) (Some (js "key"))]
    [fx_example "e1" 9 (Some Val) 1; fx_example "e2" 3 (Some Val) 2;
     fx_example "e3" 3 None 3]
    [mkRun (js "r1") (js "p") (Some (js "ft-model")) Completed 5]
    [] 0.

(** The same project without an API key and without validation examples. *)
Definition fx_db_nokey : db :=
  mkDb (Some (js "rater"))
    [mkProject (js "p") (js "base") None None]
    [fx_example "e3" 3 None 3]
    [mkRun (js "r1") (js "p") (Some (js "ft-model")) Completed 5]
    [] 0.

(** An example id all of whose rows carry split [s] and which an
    evaluation references. *)
Definition locked_with (st : db) (x : jsstr) (s : split_t) : Prop :=
  (forall ex, In ex (examples st) -> ex_id ex = x -> split ex = Some s) /\
  (exists ex, In ex (examples st) /\ ex_id ex = x) /\
  referenced st x = true.

(** [fx_db] after an evaluation of [r1] against the baseline. *)
Definition fx_db_evaluated : db :=
  snd (startEvaluation fx_provider fx_uuid fx_db (js "p") (js "r1") (js "baseline")).

Definition fx_quality : plan_config :=
  mkPlanConfig 1 2 (fun r => if (8 <=? r)%Z then 1%Z else 0%Z).

(** The first listed item of a read ([hd] with a blank default). *)
Definition first_item (r : result (list evaluation_item) items_error) : evaluation_item :=
  match r with
  | Ok (it :: _) => it
  | _ => mkItem [] [] [] JSUndefined JSUndefined false None None None
  end.

Definition items_of (r : result (list evaluation_item) items_error) : list evaluation_item :=
  match r with Ok l => l | Err _ => [] end.

(** [fx_db_evaluated] after a rater preferred side A of row [u0]. *)
Definition fx_db_scored : db :=
  snd (saveEvaluationScore fx_db_evaluated (js "u0") false PrefA (Some 7%Z) (Some 4%Z)).

(** The items of run [r1] in [fx_db_evaluated], as the comparison screen
    receives them. *)
Definition fx_items : list evaluation_item :=
  items_of (getEvaluationItems fx_db_evaluated (js "r1")).

(** A row of a new evaluation batch for a validation example: it belongs
    to the project and the run, refers to the example, carries no score
    and no preference, and holds the answers of one successful pair of
    completion calls for the example messages, the fine-tuned one as
    [model_output]. *)
Definition generated_row
    (provider : nat -> jsstr -> list message -> jsstr -> option response)
    (apiKey : jsstr) (sp : option jsstr) (modelA modelB : model_option)
    (projectId trainingRunId : jsstr) (row : evaluation) (ex : example) : Prop :=
  ev_project row = projectId /\ training_run_id row = trainingRunId /\
  example_id row = ex_id ex /\
  preferred row = None /\ model_score row = None /\ baseline_score row = None /\
  scored_by row = None /\
  exists n outA outB,
    generateCompletion provider n (opt_model_id modelA) (build_messages sp (input ex)) apiKey
      = Ok outA /\
    generateCompletion provider (S n) (opt_model_id modelB) (build_messages sp (input ex)) apiKey
      = Ok outB /\
    model_output row = (if is_fine_tuned modelA then outA else outB) /\
    baseline_output row = (if is_baseline modelA then outA else outB).

(** [fx_db] with a second, newer completed run and a failed one. *)
Definition fx_db_runs : db :=
  set_training_runs fx_db
    [mkRun (js "r1") (js "p") (Some (js "ft-model")) Completed 5;
     mkRun (js "r2") (js "p") (Some (js "ft-model-2")) Completed 9;
     mkRun (js "r3") (js "p") None Failed 7].

(** Its evaluation setup. *)
Definition fx_setup : setup_data :=
  match getEvalSetupData fx_db_runs (js "p") with
  | Ok sd => sd
  | Err _ => mkSetup [] 0 [] None
  end.

(** A code-unit comparison of strings, standing in for [localeCompare]. *)
Fixpoint fx_localeCompare (a b : jsstr) : Z :=
  match a, b with
  | [], [] => 0%Z
  | [], _ :: _ => (-1)%Z
  | _ :: _, [] => 1%Z
  | c :: a', d :: b' =>
      match N.compare c d with
      | Lt => (-1)%Z
      | Gt => 1%Z
      | Eq => fx_localeCompare a' b'
      end
  end.

(** A [/models] listing: two chat models, one of them recommended, and a
    model that is not a chat model. *)
Definition fx_models : list together_model :=
  [mkTogetherModel (js "org/zeta-chat") None 4096;
   mkTogetherModel (js "embed/base-v1") (Some (js "Embed")) 512;
   mkTogetherModel (js "mistralai/Mistral-7B-Instruct-v0.3") (Some []) 32768;
   mkTogetherModel (js "org/alpha-Chat") (Some (js "Alpha")) 8192].

(** An evaluation of the two completed runs of [fx_db_runs] against each other. *)
Definition fx_db_two : db :=
  snd (startEvaluation fx_provider fx_uuid fx_db_runs (js "p") (js "r1") (js "r2")).

(** Row [u0] of [fx_db_evaluated] and the example map of its read. *)
Definition fx_row_u0 : evaluation :=
  hd (mkEval [] [] [] [] JSUndefined JSUndefined None None None None)
     (evaluations fx_db_evaluated).

Definition fx_map : list (jsstr * jsstr) := map (fun e => (ex_id e, input e)) (examples fx_db).

(** The output shown on a side, and the output a model/baseline
    preference stands for (both as the reader sees them, [?? '']). *)
Definition shown (it : evaluation_item) (side : ab_pref) : option jsval :=
  match side with PrefA => Some (output_a it) | PrefB => Some (output_b it) | PrefTie => None end.

Definition denoted (r : evaluation) (p : pref) : option jsval :=
  match p with
  | PModel => Some (coalesce (model_output r) empty_str)
  | PBaseline => Some (coalesce (baseline_output r) empty_str)
  | PTie => None
  end.

(** The project of [fx_db] with an API key but no validation example. *)
Definition fx_db_noval : db :=
  set_examples fx_db [fx_example "e3" 3 None 3].

(** Two rows agree on every column that scoring does not write. *)
Definition same_content (r2 r : evaluation) : Prop :=
  ev_id r2 = ev_id r /\ ev_project r2 = ev_project r /\
  training_run_id r2 = training_run_id r /\ example_id r2 = example_id r /\
  model_output r2 = model_output r /\ baseline_output r2 = baseline_output r.

(** A [choices] array the provider may send back with HTTP success that
    carries no text: empty, or whose first choice, its [message] or the
    message's [content] is missing. *)
Definition degenerate_choices (l : list jsval) : Prop :=
  l = [] \/
  exists c0 rest, l = c0 :: rest /\
    (nullish c0 = true \/
     nullish (opt_get c0 (PName (js "message"))) = true \/
     nullish (opt_get (opt_get c0 (PName (js "message"))) (PName (js "content"))) = true).

(** A reply body without a [choices] array: [null] itself, or [choices]
    absent or [null]. *)
Definition missing_choices (data : jsval) : Prop :=
  nullish data = true \/
  get_prop data (PName (js "choices")) = Some JSUndefined \/
  get_prop data (PName (js "choices")) = Some JSNull.

(** A provider whose every call succeeds with a degenerate [choices]. *)
Definition degenerate_provider
    (provider : nat -> jsstr -> list message -> jsstr -> option response) : Prop :=
  forall n m msgs k, exists resp data l,
    provider n m msgs k = Some resp /\ resp_ok resp = true /\ resp_json resp = Some data /\
    get_prop data (PName (js "choices")) = Some (JSArr l) /\ degenerate_choices l.

(** A text without a [\n] code unit. *)
Definition no_newline (s : jsstr) : Prop := Forall (fun c => c <> 10%N) s.

(** The assistant turn of an example: its rewrite if any, else its output. *)
Definition assistant_text (ex : training_example) : jsstr :=
  match te_rewrite ex with Some r => r | None => te_output ex end.

(** The JSONL line of an example as the spec describes it: a system
    message whenever a prompt is given. *)
Definition claimed_line (sp : option jsstr) (ex : training_example) : jsstr :=
  stringify (JObj [(js "messages", JArr (map message_json
    (match sp with Some s => [mkMessage RSystem s] | None => [] end
     ++ [mkMessage RUser (te_input ex); mkMessage RAssistant (assistant_text ex)])))]).

(** The JSONL line with the system message only for a non-empty prompt. *)
Definition expected_line (sp : option jsstr) (ex : training_example) : jsstr :=
  stringify (JObj [(js "messages", JArr (map message_json
    (match sp with Some (c :: cs) => [mkMessage RSystem (c :: cs)] | _ => [] end
     ++ [mkMessage RUser (te_input ex); mkMessage RAssistant (assistant_text ex)])))]).

(** An example with input [hi] and output [ok]. *)
Definition fx_training_example : training_example :=
  mkTrainingExample (js "hi") (js "ok") None.

(** A row without a preference carries no score. *)
Definition unscored_clean (r : evaluation) : Prop :=
  preferred r = None -> model_score r = None /\ baseline_score r = None.

(** Any number of writes. *)
Inductive steps : db -> db -> Prop :=
| steps_refl st : steps st st
| steps_step st1 st2 st3 : step st1 st2 -> steps st2 st3 -> steps st1 st3.

(** The object a line of the export holds. *)
Definition line_json (sp : option jsstr) (ex : training_example) : json :=
  JObj [(js "messages", JArr (map message_json
    (match sp with Some (c :: cs) => [mkMessage RSystem (c :: cs)] | _ => [] end
     ++ [mkMessage RUser (te_input ex); mkMessage RAssistant (assistant_text ex)])))].

(** A provider call sequence in which the pair of calls of some example
    fails (the calls after the first failure are not made). *)
Inductive some_pair_fails
    (provider : nat -> jsstr -> list message -> jsstr -> option response)
    (apiKey : jsstr) (sp : option jsstr) (modelA modelB : model_option)
    : nat -> list example -> Prop :=
| pair_fails_a n ex rest e :
    generateCompletion provider n (opt_model_id modelA) (build_messages sp (input ex)) apiKey
      = Err e ->
    some_pair_fails provider apiKey sp modelA modelB n (ex :: rest)
| pair_fails_b n ex rest a e :
    generateCompletion provider n (opt_model_id modelA) (build_messages sp (input ex)) apiKey
      = Ok a ->
    generateCompletion provider (S n) (opt_model_id modelB) (build_messages sp (input ex)) apiKey
      = Err e ->
    some_pair_fails provider apiKey sp modelA modelB n (ex :: rest)
| pair_fails_later n ex rest a b :
    generateCompletion provider n (opt_model_id modelA) (build_messages sp (input ex)) apiKey
      = Ok a ->
    generateCompletion provider (S n) (opt_model_id modelB) (build_messages sp (input ex)) apiKey
      = Ok b ->
    some_pair_fails provider apiKey sp modelA modelB (S (S n)) rest ->
    some_pair_fails provider apiKey sp modelA modelB n (ex :: rest).

(** ** Lemmas *)

Lemma jseqb_eq a b : jseqb a b = true <-> a = b.
Proof. unfold jseqb; destruct (list_eq_dec N.eq_dec a b); split; congruence. Qed.

Lemma jseqb_refl a : jseqb a a = true.
Proof. apply jseqb_eq; reflexivity. Qed.

Lemma jseqb_false a b : jseqb a b = false <-> a <> b.
Proof. unfold jseqb; destruct (list_eq_dec N.eq_dec a b); split; congruence. Qed.

Section GenLoop.
Variables (provider : nat -> jsstr -> list message -> jsstr -> option response)
          (projectId trainingRunId apiKey : jsstr) (sp : option jsstr)
          (modelA modelB : model_option).

Lemma gen_loop_fails n exs :
  some_pair_fails provider apiKey sp modelA modelB n exs ->
  exists e, gen_loop provider projectId trainingRunId apiKey sp modelA modelB n exs = Err e.
Proof.
  induction 1 as [n ex rest e Ha|n ex rest a e Ha Hb|n ex rest a b Ha Hb _ [e IH]]; simpl.
  - rewrite Ha; eauto.
  - rewrite Ha, Hb; eauto.
  - rewrite Ha, Hb, IH; eauto.
Qed.

Lemma gen_loop_ok n exs recs :
  gen_loop provider projectId trainingRunId apiKey sp modelA modelB n exs = Ok recs ->
  List.length recs = List.length exs /\
  ~ some_pair_fails provider apiKey sp modelA modelB n exs.
Proof.
  revert n recs; induction exs as [|ex rest IH]; intros n recs H; simpl in H.
  - injection H as <-; split; [reflexivity|]. intros Hf; inversion Hf.
  - destruct (generateCompletion provider n _ _ _) as [a|e] eqn:Ha; [|discriminate].
    destruct (generateCompletion provider (S n) _ _ _) as [b|e] eqn:Hb; [|discriminate].
    destruct (gen_loop _ _ _ _ _ _ _ (S (S n)) rest) as [recs'|e] eqn:Hr; [|discriminate].
    injection H as <-. destruct (IH _ _ Hr) as [Hl Hn]. split; [simpl; congruence|].
    intros Hf; inversion Hf; subst; congruence.
Qed.

End GenLoop.

(** The outcome of [startEvaluation]: a failure with the store unchanged,
    or a success that appended one row per validation example after every
    pair of completions succeeded. *)
Lemma startEvaluation_outcome provider gen_uuid st projectId modelAId modelBId res st' :
  startEvaluation provider gen_uuid st projectId modelAId modelBId = (res, st') ->
  (exists e, res = StartErr e /\ st' = st) \/
  (exists evaluationId project apiKey setupData modelA modelB recs,
     res = StartOk evaluationId /\
     find_project st projectId = Some project /\ api_key project = Some apiKey /\
     getEvalSetupData st projectId = Ok setupData /\
     find_option (modelOptions setupData) modelAId = Some modelA /\
     find_option (modelOptions setupData) modelBId = Some modelB /\
     gen_loop provider projectId (if is_fine_tuned modelA then modelAId else modelBId) apiKey
       (system_prompt project) modelA modelB 0 (val_examples st projectId) = Ok recs /\
     ~ some_pair_fails provider apiKey (system_prompt project) modelA modelB 0
         (val_examples st projectId) /\
     recs <> [] /\
     List.length recs = List.length (val_examples st projectId) /\
     st' = set_evaluations st (evaluations st ++ rows_of gen_uuid (uuid_counter st) recs)
                           (uuid_counter st + List.length recs)).
Proof.
  unfold startEvaluation; intros H.
  destruct (user st); [|left; injection H; eauto].
  destruct (find_project st projectId) as [project|] eqn:Hp; [|left; injection H; eauto].
  destruct (api_key project) as [[|k0 ks]|] eqn:Hk; try (left; injection H; eauto; fail).
  destruct (val_examples st projectId) as [|ex0 exs] eqn:Hv; [left; injection H; eauto|].
  destruct (getEvalSetupData st projectId) as [setupData|] eqn:Hs; [|left; injection H; eauto].
  destruct (find_option _ modelAId) as [modelA|] eqn:HA; [|left; injection H; eauto].
  destruct (find_option _ modelBId) as [modelB|] eqn:HB; [|left; injection H; eauto].
  destruct (gen_loop _ _ _ _ _ _ _ _ _) as [recs|e] eqn:Hg; [|left; injection H; eauto].
  destruct recs as [|r0 recs']; [left; injection H; eauto|].
  unfold insert_evaluations in H.
  destruct (forallb (fk_ok st) (r0 :: recs')); [|left; injection H; eauto].
  injection H as <- <-. right.
  destruct (gen_loop_ok _ _ _ _ _ _ _ _ _ _ Hg) as [Hl Hn].
  do 7 eexists. repeat split; eauto; discriminate.
Qed.

(** ** C1: all-or-nothing generation *)

(** C1. For every invocation of [startEvaluation]: a failure persists
    nothing; the evaluations table changes only by one complete batch,
    one row per validation example, inserted after every pair of
    completions succeeded; and when the provider fails for the pair of
    some validation example (either call), the invocation fails with a
    generation error and the store is unchanged. *)
Theorem startEvaluation_all_or_nothing provider gen_uuid st projectId modelAId modelBId
    res st' :
  startEvaluation provider gen_uuid st projectId modelAId modelBId = (res, st') ->
  (forall e, res = StartErr e -> st' = st) /\
  (evaluations st' <> evaluations st ->
   exists project apiKey setupData modelA modelB recs,
     find_project st projectId = Some project /\ api_key project = Some apiKey /\
     getEvalSetupData st projectId = Ok setupData /\
     find_option (modelOptions setupData) modelAId = Some modelA /\
     find_option (modelOptions setupData) modelBId = Some modelB /\
     ~ some_pair_fails provider apiKey (system_prompt project) modelA modelB 0
         (val_examples st projectId) /\
     gen_loop provider projectId (if is_fine_tuned modelA then modelAId else modelBId) apiKey
       (system_prompt project) modelA modelB 0 (val_examples st projectId) = Ok recs /\
     List.length recs = List.length (val_examples st projectId) /\
     evaluations st' = evaluations st ++ rows_of gen_uuid (uuid_counter st) recs) /\
  (forall project apiKey setupData modelA modelB,
     user st <> None ->
     find_project st projectId = Some project ->
     api_key project = Some apiKey -> apiKey <> [] ->
     getEvalSetupData st projectId = Ok setupData ->
     find_option (modelOptions setupData) modelAId = Some modelA ->
     find_option (modelOptions setupData) modelBId = Some modelB ->
     some_pair_fails provider apiKey (system_prompt project) modelA modelB 0
       (val_examples st projectId) ->
     (exists e, res = StartErr (SFailedToGenerate e)) /\ st' = st).
Proof.
  intros H. split; [|split].
  - intros e ->. destruct (startEvaluation_outcome _ _ _ _ _ _ _ _ H)
      as [[e' [He Hst]]|[id [_ [_ [_ [_ [_ [_ [Hr _]]]]]]]]]; [exact Hst|discriminate].
  - intros Hne. destruct (startEvaluation_outcome _ _ _ _ _ _ _ _ H)
      as [[e' [_ Hst]]|[id [project [apiKey [setupData [modelA [modelB [recs
          [_ [Hp [Hk [Hs [HA [HB [Hg [Hn [_ [Hl Hst]]]]]]]]]]]]]]]]]].
    + subst st'; congruence.
    + exists project, apiKey, setupData, modelA, modelB, recs.
      subst st'; repeat split; assumption.
  - intros project apiKey setupData modelA modelB Hu Hp Hk Hkne Hs HA HB Hf.
    destruct (gen_loop_fails provider projectId
                (if is_fine_tuned modelA then modelAId else modelBId) apiKey
                (system_prompt project) modelA modelB 0 _ Hf) as [e He].
    unfold startEvaluation in H.
    destruct (user st) as [u|]; [|congruence].
    rewrite Hp, Hk in H. destruct apiKey as [|k0 ks]; [congruence|].
    destruct (val_examples st projectId) as [|ex0 exs] eqn:Hv; [inversion Hf|].
    rewrite Hs, HA, HB, He in H. injection H as <- <-. eauto.
Qed.

(** The provider rejects the second call (model B on the first example). *)
Lemma startEvaluation_all_or_nothing_witness :
  (exists e, fst (startEvaluation (fx_provider_fail_at 1) fx_uuid fx_db
                    (js "p") (js "r1") (js "baseline")) = StartErr (SFailedToGenerate e)) /\
  snd (startEvaluation (fx_provider_fail_at 1) fx_uuid fx_db (js "p") (js "r1") (js "baseline"))
  = fx_db.
Proof.
  eapply (proj2 (proj2 (startEvaluation_all_or_nothing (fx_provider_fail_at 1) fx_uuid fx_db
            (js "p") (js "r1") (js "baseline") _ _ (surjective_pairing _))));
  try (vm_compute; reflexivity); try discriminate.
  eapply pair_fails_b; vm_compute; reflexivity.
Defined.

(** ** C2: locked examples keep their split *)

Lemma locked_with_locked_id st x s : locked_with st x s -> locked_id st x = true.
Proof.
  intros [Hall [[ex [Hin Hid]] Hr]]. unfold locked_id. rewrite Hr, andb_true_r.
  apply existsb_exists. exists ex. split; [exact Hin|].
  rewrite Hid, jseqb_refl. unfold split_set. rewrite (Hall ex Hin Hid). reflexivity.
Qed.

Lemma split_kept_map (f : example -> example) l x s :
  (forall e, ex_id (f e) = ex_id e) ->
  (forall e, ex_id e = x -> split (f e) = split e) ->
  (forall ex, In ex l -> ex_id ex = x -> split ex = Some s) ->
  forall ex, In ex (map f l) -> ex_id ex = x -> split ex = Some s.
Proof.
  intros Hid Hsp Hall ex Hin Hx. apply in_map_iff in Hin as [e [<- He]].
  rewrite Hid in Hx. rewrite Hsp by exact Hx. exact (Hall e He Hx).
Qed.

Lemma startEvaluation_examples provider gen_uuid st pid a b :
  examples (snd (startEvaluation provider gen_uuid st pid a b)) = examples st.
Proof.
  destruct (startEvaluation provider gen_uuid st pid a b) as [res st'] eqn:H. simpl.
  destruct (startEvaluation_outcome _ _ _ _ _ _ _ _ H)
    as [[e [_ ->]]|(id & p & k & sd & ma & mb & recs & _ & _ & _ & _ & _ & _ & _ & _ & _ & _ & ->)];
    reflexivity.
Qed.

Lemma saveEvaluationScore_examples st id isA p sa sb :
  examples (snd (saveEvaluationScore st id isA p sa sb)) = examples st.
Proof.
  unfold saveEvaluationScore. destruct (user st); [|reflexivity].
  destruct (_ && _); reflexivity.
Qed.

Lemma step_keeps_locked_split st st' x s :
  step st st' -> locked_with st x s ->
  forall ex, In ex (examples st') -> ex_id ex = x -> split ex = Some s.
Proof.
  intros Hstep Hl. pose proof (locked_with_locked_id _ _ _ Hl) as Hlk.
  destruct Hl as [Hall _].
  destruct Hstep as [provider gen_uuid st pid a b|st id isA p sa sb|st id r w now|st pid
                    |st id s'|st pid cfg full|st ps|st rs|st u]; simpl.
  - rewrite startEvaluation_examples. exact Hall.
  - rewrite saveEvaluationScore_examples. exact Hall.
  - unfold rateExample. destruct (user st); [|exact Hall].
    destruct (_ && _); [exact Hall|]. simpl.
    apply split_kept_map; [| |exact Hall];
      intros e; destruct (jseqb (ex_id e) id); reflexivity.
  - unfold deleteProject. destruct (user st); [|exact Hall]. simpl.
    intros ex Hin Hx. apply filter_In in Hin as [Hin _]. exact (Hall ex Hin Hx).
  - unfold resplit. destruct (negb _); [exact Hall|].
    destruct (locked_id st id) eqn:Hid; [exact Hall|]. simpl.
    apply split_kept_map; [| |exact Hall].
    + intros e; destruct (jseqb (ex_id e) id); reflexivity.
    + intros e He. destruct (jseqb (ex_id e) id) eqn:Hj; [|reflexivity].
      apply jseqb_eq in Hj. subst x. rewrite <- Hj in Hid. congruence.
  - unfold plan_split. simpl.
    apply split_kept_map; [| |exact Hall].
    + intros e. destruct (existsb _ _); [|reflexivity].
      destruct (option_map _ _); reflexivity.
    + intros e He. destruct (existsb _ _) eqn:Hp; [|reflexivity].
      exfalso. apply existsb_exists in Hp as [q [Hq Hqe]].
      apply andb_prop in Hqe as [Hqe _]. apply jseqb_eq in Hqe.
      apply filter_In in Hq as [_ Hq].
      rewrite Hqe, He, Hlk in Hq. rewrite !andb_false_r, andb_false_l in Hq.
      discriminate.
  - exact Hall.
  - exact Hall.
  - exact Hall.
Qed.

(** C2 (spec-modelled split commands). Every operation on the store
    (evaluation start, scoring, rating, project deletion, the targeted
    re-split and the planning pass, and the writes to projects, training
    runs and the session) leaves every row of a locked example with the
    split it had; a re-split that targets a locked example is rejected with
    [Conflict] and leaves the store, hence the split, unchanged. *)
Theorem locked_split_never_changes :
  (forall st st' x s, step st st' -> locked_with st x s ->
     forall ex, In ex (examples st') -> ex_id ex = x -> split ex = Some s) /\
  (forall st x s s', locked_with st x s -> resplit st x s' = (Err (SplitConflict x), st)).
Proof.
  split.
  - exact step_keeps_locked_split.
  - intros st x s s' Hl. pose proof (locked_with_locked_id _ _ _ Hl) as Hlk.
    destruct Hl as [_ [[ex [Hin Hid]] _]].
    unfold resplit. rewrite Hlk.
    replace (existsb (fun ex => jseqb (ex_id ex) x) (examples st)) with true; [reflexivity|].
    symmetry. apply existsb_exists. exists ex. rewrite Hid, jseqb_refl. auto.
Qed.

Lemma fx_db_evaluated_locked : locked_with fx_db_evaluated (js "e1") Val.
Proof.
  split; [|split].
  - intros ex Hin Hid. vm_compute in Hin.
    destruct Hin as [<-|[<-|[<-|[]]]]; vm_compute in Hid |- *; congruence.
  - exists (fx_example "e1" 9 (Some Val) 1). split; [vm_compute; auto|reflexivity].
  - vm_compute; reflexivity.
Qed.

(** A full-reset planning pass after the evaluation keeps [e1] in [val],
    and a re-split of [e1] is a conflict. *)
Lemma locked_split_never_changes_witness :
  (In (fx_example "e1" 9 (Some Val) 1)
      (examples (snd (plan_split fx_db_evaluated (js "p") fx_quality true))) /\
   split (fx_example "e1" 9 (Some Val) 1) = Some Val) /\
  resplit fx_db_evaluated (js "e1") Train = (Err (SplitConflict (js "e1")), fx_db_evaluated).
Proof.
  split; [split|].
  - vm_compute; auto.
  - apply (proj1 locked_split_never_changes fx_db_evaluated
             (snd (plan_split fx_db_evaluated (js "p") fx_quality true)) (js "e1") Val).
    + apply StepPlan.
    + exact fx_db_evaluated_locked.
    + vm_compute; auto.
    + reflexivity.
  - exact (proj2 locked_split_never_changes fx_db_evaluated (js "e1") Val Train
             fx_db_evaluated_locked).
Defined.

(** ** C3: side assignment is a function of the item id *)

Lemma Forall2_map_r {A B} (P : A -> B -> Prop) (f : A -> B) l :
  (forall x, In x l -> P x (f x)) -> Forall2 P l (map f l).
Proof.
  induction l as [|x l IH]; intros H; constructor.
  - apply H; left; reflexivity.
  - apply IH; intros y Hy; apply H; right; exact Hy.
Qed.

Lemma getEvaluationItems_ok st trid items :
  getEvaluationItems st trid = Ok items ->
  exists m, items = map (mk_item m) (run_rows st trid).
Proof.
  unfold getEvaluationItems. destruct (user st); [|discriminate].
  intros H; injection H as <-; eauto.
Qed.

(** C3. [is_a_model] of an item is [true] exactly when the first code
    unit of its id is even; it depends on the id alone (not on outputs,
    scores or the example map), so two reads, of any stores, give items of
    the same id the same arrangement; and every read lists, per row of the
    run, an item whose [output_a]/[output_b] are the row's
    [model_output]/[baseline_output] (with [?? '']) in that order when
    [is_a_model] and swapped otherwise. *)
Theorem side_assignment_by_id :
  (forall id, isAModel_of id = true <-> exists c rest, id = c :: rest /\ (c mod 2 = 0)%N) /\
  (forall m1 m2 r1 r2, ev_id r1 = ev_id r2 ->
     is_a_model (mk_item m1 r1) = is_a_model (mk_item m2 r2)) /\
  (forall st trid items, getEvaluationItems st trid = Ok items ->
     Forall2 (fun r it =>
                item_id it = ev_id r /\ is_a_model it = isAModel_of (ev_id r) /\
                (output_a it, output_b it) =
                  (if isAModel_of (ev_id r)
                   then (coalesce (model_output r) empty_str, coalesce (baseline_output r) empty_str)
                   else (coalesce (baseline_output r) empty_str, coalesce (model_output r) empty_str)))
             (run_rows st trid) items) /\
  (forall st1 st2 trid1 trid2 items1 items2 it1 it2,
     getEvaluationItems st1 trid1 = Ok items1 -> getEvaluationItems st2 trid2 = Ok items2 ->
     In it1 items1 -> In it2 items2 -> item_id it1 = item_id it2 ->
     is_a_model it1 = is_a_model it2).
Proof.
  split; [|split; [|split]].
  - intros id. unfold isAModel_of, charCodeAt. destruct id as [|c rest]; simpl.
    + split; [discriminate|intros (c & r & H & _); discriminate].
    + rewrite N.eqb_eq. split; [eauto|].
      intros (c' & r' & H & Hm); injection H as -> ->; exact Hm.
  - intros m1 m2 r1 r2 H. simpl. rewrite H. reflexivity.
  - intros st trid items H. apply getEvaluationItems_ok in H as [m ->].
    apply Forall2_map_r. intros r _. simpl.
    repeat split. destruct (isAModel_of (ev_id r)); reflexivity.
  - intros st1 st2 trid1 trid2 items1 items2 it1 it2 H1 H2 Hi1 Hi2 Hid.
    apply getEvaluationItems_ok in H1 as [m1 ->]. apply getEvaluationItems_ok in H2 as [m2 ->].
    apply in_map_iff in Hi1 as [r1 [<- _]]. apply in_map_iff in Hi2 as [r2 [<- _]].
    simpl in *. rewrite Hid. reflexivity.
Qed.

(** Row [u0] read before and after it was scored: same arrangement. *)
Lemma side_assignment_by_id_witness :
  item_id (first_item (getEvaluationItems fx_db_evaluated (js "r1"))) = js "u0" /\
  is_a_model (first_item (getEvaluationItems fx_db_evaluated (js "r1")))
  = is_a_model (first_item (getEvaluationItems fx_db_scored (js "r1"))).
Proof.
  split; [vm_compute; reflexivity|].
  apply (proj2 (proj2 (proj2 side_assignment_by_id))
           fx_db_evaluated fx_db_scored (js "r1") (js "r1")
           (items_of (getEvaluationItems fx_db_evaluated (js "r1")))
           (items_of (getEvaluationItems fx_db_scored (js "r1")))); vm_compute; auto.
Defined.

(** ** C4: the A/B choice is translated back through the same mapping *)

Lemma saveEvaluationScore_ok st id isA p sa sb st' :
  saveEvaluationScore st id isA p sa sb = (SaveOk, st') ->
  exists uid, user st = Some uid /\
    evaluations st' =
      map (fun r => if jseqb (ev_id r) id then apply_update (build_update uid isA p sa sb) r else r)
          (evaluations st) /\
    user st' = user st.
Proof.
  unfold saveEvaluationScore. destruct (user st) as [uid|] eqn:Hu; [|discriminate].
  destruct (_ && _); [discriminate|]. intros H; injection H as <-.
  exists uid; repeat split. exact Hu.
Qed.

(** C4. For every row and example map, with the item's own [is_a_model]:
    choosing side A or B records the preference ([model] iff the chosen
    side showed the model slot) whose output is exactly the one shown on
    that side, a tie records [tie]; [model_score] receives [scoreA] iff
    [is_a_model] and [baseline_score] the other score; and a successful
    save persists that preference in the scored row. *)
Theorem score_translation_roundtrip :
  (forall m r uid choice scoreA scoreB,
     let it := mk_item m r in
     let u := build_update uid (is_a_model it) choice scoreA scoreB in
     upd_preferred u = match choice with
                       | PrefA => if is_a_model it then PModel else PBaseline
                       | PrefB => if is_a_model it then PBaseline else PModel
                       | PrefTie => PTie
                       end /\
     denoted r (upd_preferred u) = shown it choice /\
     upd_model_score u = (if is_a_model it then scoreA else scoreB) /\
     upd_baseline_score u = (if is_a_model it then scoreB else scoreA)) /\
  (forall st m r choice scoreA scoreB st',
     In r (evaluations st) ->
     saveEvaluationScore st (ev_id r) (is_a_model (mk_item m r)) choice scoreA scoreB
       = (SaveOk, st') ->
     exists r', In r' (evaluations st') /\ ev_id r' = ev_id r /\
       model_output r' = model_output r /\ baseline_output r' = baseline_output r /\
       exists p, preferred r' = Some p /\ denoted r' p = shown (mk_item m r) choice).
Proof.
  split.
  - intros m r uid choice scoreA scoreB it u. subst it u. unfold mk_item; simpl.
    destruct choice, (isAModel_of (ev_id r)); repeat split.
  - intros st m r choice scoreA scoreB st' Hin H.
    apply saveEvaluationScore_ok in H as [uid [_ [Hev _]]].
    set (u := build_update uid (is_a_model (mk_item m r)) choice scoreA scoreB).
    exists (apply_update u r). rewrite Hev. split.
    + apply in_map_iff. exists r. rewrite jseqb_refl. auto.
    + simpl. repeat split. exists (upd_preferred u). split; [reflexivity|].
      subst u. unfold shown, mk_item; simpl.
      destruct choice, (isAModel_of (ev_id r)); reflexivity.
Qed.

(** Scoring side A of row [u0] of [fx_db_evaluated]. *)
Lemma score_translation_roundtrip_witness :
  exists r', In r' (evaluations fx_db_scored) /\ ev_id r' = ev_id fx_row_u0 /\
    model_output r' = model_output fx_row_u0 /\
    baseline_output r' = baseline_output fx_row_u0 /\
    exists p, preferred r' = Some p /\ denoted r' p = shown (mk_item fx_map fx_row_u0) PrefA.
Proof.
  apply (proj2 score_translation_roundtrip fx_db_evaluated fx_map fx_row_u0
           PrefA (Some 7%Z) (Some 4%Z) fx_db_scored).
  - vm_compute; auto.
  - vm_compute; reflexivity.
Defined.

(** ** C8: a second score overwrites the first *)

Lemma saveEvaluationScore_rows st id isA p sa sb res st' uid :
  user st = Some uid ->
  saveEvaluationScore st id isA p sa sb = (res, st') ->
  user st' = user st /\
  (evaluations st' = evaluations st \/
   evaluations st' =
     map (fun r => if jseqb (ev_id r) id then apply_update (build_update uid isA p sa sb) r else r)
         (evaluations st)).
Proof.
  intros Hu. unfold saveEvaluationScore. rewrite Hu.
  destruct (_ && _); intros H; injection H as _ <-; simpl; auto.
Qed.

(** C8. After two scorings of the same item id by the session user, the
    second one successful, every row of that id has the second call's
    [preferred] and [scored_by], and its [model_score] / [baseline_score]
    wherever the second call gave a score for that side, the row's other
    columns unchanged; every row of another id is the row it was before
    both calls. *)
Theorem second_score_overwrites st id isA1 p1 a1 b1 isA2 p2 a2 b2 res1 st1 st2 uid :
  user st = Some uid ->
  saveEvaluationScore st id isA1 p1 a1 b1 = (res1, st1) ->
  saveEvaluationScore st1 id isA2 p2 a2 b2 = (SaveOk, st2) ->
  Forall2 (fun r r2 =>
             if jseqb (ev_id r) id then
               preferred r2 = Some (modelPreferred_of isA2 p2) /\
               scored_by r2 = Some uid /\
               (forall z, (if isA2 then a2 else b2) = Some z -> model_score r2 = Some z) /\
               (forall z, (if isA2 then b2 else a2) = Some z -> baseline_score r2 = Some z) /\
               same_content r2 r
             else r2 = r)
          (evaluations st) (evaluations st2).
Proof.
  intros Hu H1 H2.
  destruct (saveEvaluationScore_rows _ _ _ _ _ _ _ _ _ Hu H1) as [Hu1 Hrows1].
  apply saveEvaluationScore_ok in H2 as [uid2 [Hu2 [Hev2 _]]].
  rewrite Hu1, Hu in Hu2. injection Hu2 as <-.
  rewrite Hev2.
  assert (Hst1 : exists g, evaluations st1 = map g (evaluations st) /\
            forall r, (jseqb (ev_id r) id = true -> same_content (g r) r) /\
                      (jseqb (ev_id r) id = false -> g r = r)).
  { destruct Hrows1 as [E|E].
    - exists (fun r => r). rewrite E, map_id. split; [reflexivity|].
      intros r; split; intros _; [unfold same_content; repeat split | reflexivity].
    - eexists. split; [exact E|].
      intros r; split; intros Hr; rewrite Hr; [unfold same_content; repeat split | reflexivity]. }
  destruct Hst1 as [g [-> Hg]]. rewrite map_map. clear Hrows1 H1.
  induction (evaluations st) as [|r l IH]; simpl; [constructor|constructor; [|exact IH]].
  destruct (jseqb (ev_id r) id) eqn:E.
  - destruct (proj1 (Hg r) E) as (Hid & Hp & Ht & He & Hm & Hb).
    rewrite Hid, E.
    unfold same_content; simpl.
    repeat split; try congruence; intros z Hz; rewrite Hz; reflexivity.
  - rewrite (proj2 (Hg r) E), E. reflexivity.
Qed.

(** Witness: [fx_db_evaluated] scored on row [u0] as A-preferred with
    scores 7 and 4, then rescored as B-preferred with only a score for B. *)
Lemma second_score_overwrites_witness :
  Forall2 (fun r r2 =>
             if jseqb (ev_id r) (js "u0") then
               preferred r2 = Some (modelPreferred_of true PrefB) /\
               scored_by r2 = Some (js "rater") /\
               (forall z, (if true then None else Some 2%Z) = Some z -> model_score r2 = Some z) /\
               (forall z, (if true then Some 2%Z else None) = Some z -> baseline_score r2 = Some z) /\
               same_content r2 r
             else r2 = r)
          (evaluations fx_db_evaluated)
          (evaluations (snd (saveEvaluationScore fx_db_scored (js "u0") true PrefB None (Some 2%Z)))).
Proof.
  apply (second_score_overwrites fx_db_evaluated (js "u0") false PrefA (Some 7%Z) (Some 4%Z)
           true PrefB None (Some 2%Z)
           (fst (saveEvaluationScore fx_db_evaluated (js "u0") false PrefA (Some 7%Z) (Some 4%Z)))
           fx_db_scored).
  - vm_compute. reflexivity.
  - unfold fx_db_scored. apply surjective_pairing.
  - vm_compute. reflexivity.
Defined.

(** ** C5: the server does not reject two identical model selections *)

(** C5. [startEvaluation] compares neither the two model ids nor the
    models they resolve to: selecting the fine-tuned run [r1] on both
    sides of [fx_db] succeeds, runs generation for the same model twice per
    validation example and inserts the two rows. *)
Theorem startEvaluation_same_model_accepted :
  fst (startEvaluation fx_provider fx_uuid fx_db (js "p") (js "r1") (js "r1"))
    = StartOk (js "r1") /\
  map (fun r => (model_output r, baseline_output r))
      (evaluations (snd (startEvaluation fx_provider fx_uuid fx_db (js "p") (js "r1") (js "r1"))))
    = [(JSStr (js "ft-model0"), JSStr (js "ft-model1"));
       (JSStr (js "ft-model2"), JSStr (js "ft-model3"))].
Proof. split; vm_compute; reflexivity. Qed.

(** ** C7: an empty validation split *)

(** C7 (as stated, refuted). With no validation example, the project of
    [fx_db_nokey] is reported as [API key not configured], not as
    [No validation examples found]: the key check comes first. *)
Lemma empty_val_split_reported_as_missing_key :
  val_examples fx_db_nokey (js "p") = [] /\
  fst (startEvaluation fx_provider fx_uuid fx_db_nokey (js "p") (js "r1") (js "baseline"))
    = StartErr SApiKeyNotConfigured.
Proof. split; vm_compute; reflexivity. Qed.

(** C7 (amended). For every project with an empty validation split,
    [startEvaluation] returns a typed failure and leaves the store
    unchanged; the failure is one of the four checks made before
    generation, and it is [No validation examples found] whenever the
    session user exists, the project is found and its API key is a
    non-empty string. *)
Theorem empty_val_split_fails provider gen_uuid st pid a b :
  val_examples st pid = [] ->
  exists e,
    startEvaluation provider gen_uuid st pid a b = (StartErr e, st) /\
    (e = SNotAuthenticated \/ e = SProjectNotFound \/ e = SApiKeyNotConfigured \/
     e = SNoValidationExamples) /\
    (forall uid project k, user st = Some uid -> find_project st pid = Some project ->
       api_key project = Some k -> k <> [] -> e = SNoValidationExamples).
Proof.
  intros Hv. unfold startEvaluation.
  destruct (user st) as [u|] eqn:Hu.
  2: { eexists; split; [reflexivity|]; split; [auto|]. intros; congruence. }
  destruct (find_project st pid) as [project|] eqn:Hp.
  2: { eexists; split; [reflexivity|]; split; [auto|]. intros; congruence. }
  destruct (api_key project) as [[|k0 ks]|] eqn:Hk.
  - eexists; split; [reflexivity|]; split; [auto|].
    intros uid project0 k _ Hp' Hk' Hne. injection Hp' as <-.
    rewrite Hk in Hk'. injection Hk' as <-. contradiction.
  - rewrite Hv. eexists; split; [reflexivity|]; split; auto.
  - eexists; split; [reflexivity|]; split; [auto|].
    intros uid project0 k _ Hp' Hk' _. injection Hp' as <-. congruence.
Qed.

(** Witness: the project of [fx_db_noval] has a key and no validation
    example. *)
Lemma empty_val_split_fails_witness :
  exists e,
    startEvaluation fx_provider fx_uuid fx_db_noval (js "p") (js "r1") (js "baseline")
      = (StartErr e, fx_db_noval) /\
    (e = SNotAuthenticated \/ e = SProjectNotFound \/ e = SApiKeyNotConfigured \/
     e = SNoValidationExamples) /\
    (forall uid project k, user fx_db_noval = Some uid ->
       find_project fx_db_noval (js "p") = Some project ->
       api_key project = Some k -> k <> [] -> e = SNoValidationExamples).
Proof.
  apply empty_val_split_fails. vm_compute. reflexivity.
Defined.

(** ** C10: degenerate provider replies *)

Lemma opt_get_nullish v k : nullish v = true -> opt_get v k = JSUndefined.
Proof. unfold opt_get. intros ->. reflexivity. Qed.

Lemma coalesce_nullish v d : nullish v = true -> coalesce v d = d.
Proof. unfold coalesce. intros ->. reflexivity. Qed.

Lemma generateCompletion_degenerate provider n m msgs k resp data l :
  provider n m msgs k = Some resp -> resp_ok resp = true -> resp_json resp = Some data ->
  get_prop data (PName (js "choices")) = Some (JSArr l) -> degenerate_choices l ->
  generateCompletion provider n m msgs k = Ok (JSStr []).
Proof.
  intros Hp Hok Hj Hc Hd. unfold generateCompletion.
  rewrite Hp, Hok, Hj, Hc. simpl.
  destruct Hd as [->|(c0 & rest & -> & Hd)]; [reflexivity|]. simpl.
  rewrite coalesce_nullish; [reflexivity|].
  destruct Hd as [Hd|[Hd|Hd]]; [| |exact Hd].
  - rewrite (opt_get_nullish c0 _ Hd). reflexivity.
  - rewrite (opt_get_nullish _ _ Hd). reflexivity.
Qed.

Lemma generateCompletion_missing provider n m msgs k resp data :
  provider n m msgs k = Some resp -> resp_ok resp = true -> resp_json resp = Some data ->
  missing_choices data ->
  generateCompletion provider n m msgs k = Err GenTypeError.
Proof.
  intros Hp Hok Hj Hm. unfold generateCompletion.
  rewrite Hp, Hok, Hj. simpl.
  destruct Hm as [Hn|[Hc|Hc]].
  - destruct data; try discriminate; reflexivity.
  - rewrite Hc. reflexivity.
  - rewrite Hc. reflexivity.
Qed.

Section AllEmpty.
Variables (provider : nat -> jsstr -> list message -> jsstr -> option response)
          (projectId trainingRunId apiKey : jsstr) (sp : option jsstr)
          (modelA modelB : model_option).
Hypothesis all_empty : forall n m msgs, generateCompletion provider n m msgs apiKey = Ok (JSStr []).

Lemma gen_loop_all_empty n exs :
  exists recs,
    gen_loop provider projectId trainingRunId apiKey sp modelA modelB n exs = Ok recs /\
    Forall (fun r => rec_model_output r = JSStr [] /\ rec_baseline_output r = JSStr []) recs.
Proof.
  revert n; induction exs as [|ex rest IH]; intros n; simpl.
  - eexists; split; [reflexivity|constructor].
  - rewrite !all_empty. destruct (IH (S (S n))) as [recs [-> F]].
    eexists; split; [reflexivity|]. constructor; [|exact F].
    simpl. destruct (is_fine_tuned modelA), (is_baseline modelA); auto.
Qed.

End AllEmpty.

Lemma startEvaluation_generate_error provider gen_uuid st pid a b e st' :
  startEvaluation provider gen_uuid st pid a b = (StartErr (SFailedToGenerate e), st') ->
  exists trid apiKey sp modelA modelB,
    gen_loop provider pid trid apiKey sp modelA modelB 0 (val_examples st pid) = Err e.
Proof.
  unfold startEvaluation; intros H.
  destruct (user st); [|discriminate].
  destruct (find_project st pid) as [project|]; [|discriminate].
  destruct (api_key project) as [[|k0 ks]|]; try discriminate.
  destruct (val_examples st pid) as [|ex0 exs]; [discriminate|].
  destruct (getEvalSetupData st pid) as [setupData|]; [|discriminate].
  destruct (find_option _ a) as [modelA|]; [|discriminate].
  destruct (find_option _ b) as [modelB|]; [|discriminate].
  destruct (gen_loop _ _ _ _ _ _ _ _ _) as [recs|e'] eqn:Hg.
  - destruct recs as [|r0 recs']; [discriminate|].
    destruct (insert_evaluations _ _); discriminate.
  - injection H as -> _. do 5 eexists. exact Hg.
Qed.

Lemma rows_of_outputs gen_uuid k recs :
  Forall (fun r => rec_model_output r = JSStr [] /\ rec_baseline_output r = JSStr []) recs ->
  Forall (fun r => model_output r = JSStr [] /\ baseline_output r = JSStr [])
         (rows_of gen_uuid k recs).
Proof.
  intros H; revert k; induction H as [|r t Hr _ IH]; intros k; simpl; constructor; auto.
Qed.

(** C10 (as stated, refuted). A reply with HTTP success whose body has no
    [choices] key makes [data.choices[0]] throw: the completion fails with
    a [TypeError] and [startEvaluation] reports a generation failure. *)
Lemma missing_choices_reported_as_failure :
  generateCompletion (fx_provider_body (JSObj [])) 0 (js "base") [] (js "key")
    = Err GenTypeError /\
  fst (startEvaluation (fx_provider_body (JSObj [])) fx_uuid fx_db (js "p") (js "r1") (js "baseline"))
    = StartErr (SFailedToGenerate GenTypeError).
Proof. split; vm_compute; reflexivity. Qed.

(** C10 (amended). With HTTP success, an empty [choices] array or a first
    choice without [message] or [content] makes [generateCompletion]
    return the empty string; a body that is [null] or lacks [choices]
    (absent or [null]) makes it throw a [TypeError]. Against a provider
    that only ever sends degenerate [choices], [startEvaluation] never
    reports a generation failure, and on success every inserted row has
    the empty string as [model_output] and [baseline_output]. *)
Theorem degenerate_reply_outcome :
  (forall provider n m msgs k resp data l,
     provider n m msgs k = Some resp -> resp_ok resp = true -> resp_json resp = Some data ->
     get_prop data (PName (js "choices")) = Some (JSArr l) -> degenerate_choices l ->
     generateCompletion provider n m msgs k = Ok (JSStr [])) /\
  (forall provider n m msgs k resp data,
     provider n m msgs k = Some resp -> resp_ok resp = true -> resp_json resp = Some data ->
     missing_choices data ->
     generateCompletion provider n m msgs k = Err GenTypeError) /\
  (forall provider gen_uuid st pid a b res st',
     degenerate_provider provider ->
     startEvaluation provider gen_uuid st pid a b = (res, st') ->
     (forall e, res <> StartErr (SFailedToGenerate e)) /\
     (forall id, res = StartOk id ->
        exists rows, evaluations st' = evaluations st ++ rows /\ rows <> [] /\
          Forall (fun r => model_output r = JSStr [] /\ baseline_output r = JSStr []) rows)).
Proof.
  split; [exact generateCompletion_degenerate|].
  split; [exact generateCompletion_missing|].
  intros provider gen_uuid st pid a b res st' Hdeg H.
  assert (Hall : forall apiKey n m msgs,
            generateCompletion provider n m msgs apiKey = Ok (JSStr [])).
  { intros apiKey n m msgs.
    destruct (Hdeg n m msgs apiKey) as (resp & data & l & Hp & Hok & Hj & Hc & Hd).
    exact (generateCompletion_degenerate _ _ _ _ _ _ _ _ Hp Hok Hj Hc Hd). }
  split.
  - intros e ->.
    destruct (startEvaluation_generate_error _ _ _ _ _ _ _ _ H)
      as (trid & apiKey & sp & modelA & modelB & Hg).
    destruct (gen_loop_all_empty provider pid trid apiKey sp modelA modelB (Hall apiKey) 0
                (val_examples st pid)) as [recs [Hg' _]].
    congruence.
  - intros id ->.
    destruct (startEvaluation_outcome _ _ _ _ _ _ _ _ H)
      as [[e [He _]] | (id' & project & apiKey & sd & ma & mb & recs & _ & _ & _ & _ & _ & _ &
                         Hg & _ & Hne & _ & ->)]; [discriminate|].
    destruct (gen_loop_all_empty provider pid (if is_fine_tuned ma then a else b) apiKey
                (system_prompt project) ma mb (Hall apiKey) 0 (val_examples st pid))
      as [recs' [Hg' F]].
    rewrite Hg in Hg'. injection Hg' as <-.
    exists (rows_of gen_uuid (uuid_counter st) recs). split; [reflexivity|]. split.
    + destruct recs; [contradiction|discriminate].
    + apply rows_of_outputs, F.
Qed.

(** Witness: a provider that always answers [{"choices": []}]; the
    evaluation of [r1] against the baseline on [fx_db]. *)
Lemma degenerate_reply_outcome_witness :
  let P := fx_provider_body (JSObj [(js "choices", JSArr [])]) in
  let run := startEvaluation P fx_uuid fx_db (js "p") (js "r1") (js "baseline") in
  (forall e, fst run <> StartErr (SFailedToGenerate e)) /\
  (forall id, fst run = StartOk id ->
     exists rows, evaluations (snd run) = evaluations fx_db ++ rows /\ rows <> [] /\
       Forall (fun r => model_output r = JSStr [] /\ baseline_output r = JSStr []) rows).
Proof.
  intros P run.
  apply (proj2 (proj2 degenerate_reply_outcome) P fx_uuid fx_db (js "p") (js "r1") (js "baseline")).
  - intros n m msgs k. do 3 eexists.
    split; [reflexivity|]. split; [reflexivity|]. split; [reflexivity|].
    split; [vm_compute; reflexivity|]. left; reflexivity.
  - apply surjective_pairing.
Defined.

(** ** C9: the JSONL export *)

Lemma hex_digit_nn d : hex_digit d <> 10%N.
Proof. unfold hex_digit. destruct (d <? 10)%N; lia. Qed.

Lemma unicode_escape_nn c : no_newline (unicode_escape c).
Proof.
  unfold no_newline, unicode_escape.
  repeat constructor; try discriminate; apply hex_digit_nn.
Qed.

Lemma escape_unit_nn c : no_newline (escape_unit c).
Proof.
  unfold escape_unit.
  destruct (c =? 8)%N; [repeat constructor; discriminate|].
  destruct (c =? 9)%N; [repeat constructor; discriminate|].
  destruct (c =? 10)%N eqn:E10; [repeat constructor; discriminate|].
  destruct (c =? 12)%N; [repeat constructor; discriminate|].
  destruct (c =? 13)%N; [repeat constructor; discriminate|].
  destruct (c =? 34)%N; [repeat constructor; discriminate|].
  destruct (c =? 92)%N; [repeat constructor; discriminate|].
  destruct (c <? 32)%N; [apply unicode_escape_nn|].
  constructor; [|constructor]. apply N.eqb_neq, E10.
Qed.

Lemma no_newline_app a b : no_newline a -> no_newline b -> no_newline (a ++ b).
Proof. unfold no_newline. intros; apply Forall_app; auto. Qed.

Lemma is_high_nn c : is_high c = true -> c <> 10%N.
Proof. unfold is_high. rewrite andb_true_iff, !N.leb_le. lia. Qed.

Lemma is_low_nn c : is_low c = true -> c <> 10%N.
Proof. unfold is_low. rewrite andb_true_iff, !N.leb_le. lia. Qed.

Lemma escape_nn_bound n s : List.length s <= n -> no_newline (escape s).
Proof.
  revert s; induction n as [|n IH]; intros [|c rest] Hl; simpl in Hl;
    try (constructor; fail); try lia.
  cbn [escape]. destruct (is_high c) eqn:Hh.
  - destruct rest as [|d rest'].
    + apply unicode_escape_nn.
    + destruct (is_low d) eqn:Hd.
      * constructor; [apply is_high_nn, Hh|]. constructor; [apply is_low_nn, Hd|].
        apply IH. simpl in Hl. lia.
      * apply no_newline_app; [apply unicode_escape_nn|]. apply IH. exact (le_S_n _ _ Hl).
  - destruct (is_low c).
    + apply no_newline_app; [apply unicode_escape_nn|]. apply IH. lia.
    + apply no_newline_app; [apply escape_unit_nn|]. apply IH. lia.
Qed.

Lemma quote_nn s : no_newline (quote s).
Proof.
  unfold quote. apply no_newline_app; [repeat constructor; discriminate|].
  apply no_newline_app; [apply (escape_nn_bound (List.length s)); lia|].
  repeat constructor; discriminate.
Qed.

Lemma join_nn sep l : no_newline sep -> Forall no_newline l -> no_newline (join sep l).
Proof.
  intros Hs Hl. induction Hl as [|x t Hx Ht IH]; [constructor|].
  destruct t as [|y t]; [exact Hx|].
  change (no_newline (x ++ sep ++ join sep (y :: t))).
  apply no_newline_app; [exact Hx|]. apply no_newline_app; assumption.
Qed.

Lemma stringify_nn : forall j, no_newline (stringify j).
Proof.
  fix IH 1. intros [s|l|kvs]; cbn [stringify].
  - apply quote_nn.
  - apply no_newline_app; [repeat constructor; discriminate|].
    apply no_newline_app; [|repeat constructor; discriminate].
    apply join_nn; [repeat constructor; discriminate|].
    clear -IH. revert l. fix IHl 1. intros [|j l]; cbn [map]; constructor.
    + apply IH.
    + apply IHl.
  - apply no_newline_app; [repeat constructor; discriminate|].
    apply no_newline_app; [|repeat constructor; discriminate].
    apply join_nn; [repeat constructor; discriminate|].
    clear -IH. revert kvs. fix IHk 1. intros [|[k v] kvs]; cbn [map]; constructor.
    + apply no_newline_app; [apply quote_nn|].
      apply no_newline_app; [repeat constructor; discriminate|apply IH].
    + apply IHk.
Qed.

Lemma split_lines_nonempty s : exists l ls, split_lines s = l :: ls.
Proof.
  induction s as [|c t [l [ls IH]]]; simpl; [eauto|]. rewrite IH.
  destruct (c =? 10)%N; eauto.
Qed.

Lemma split_lines_plain a b l ls :
  no_newline a -> split_lines b = l :: ls -> split_lines (a ++ b) = (a ++ l) :: ls.
Proof.
  intros Ha Hb. induction Ha as [|c a Hc _ IH]; [exact Hb|].
  simpl. rewrite IH. apply N.eqb_neq in Hc. rewrite Hc. reflexivity.
Qed.

Lemma split_lines_join lines :
  lines <> [] -> Forall no_newline lines -> split_lines (join [10%N] lines) = lines.
Proof.
  intros Hne Hl. induction Hl as [|x t Hx Ht IH]; [contradiction|].
  destruct t as [|y t].
  - simpl. rewrite <- (app_nil_r x) at 1. erewrite split_lines_plain; [|exact Hx|reflexivity].
    rewrite app_nil_r. reflexivity.
  - change (split_lines (x ++ [10%N] ++ join [10%N] (y :: t)) = x :: y :: t).
    erewrite split_lines_plain; [rewrite app_nil_r; reflexivity|exact Hx|].
    cbn [app split_lines]. rewrite IH by discriminate. reflexivity.
Qed.

(** C9 (as stated, refuted). A given but empty system prompt adds no
    system message: the line is not the one with a leading system
    message. *)
Lemma empty_prompt_has_no_system_message :
  formatExamplesToJSONL [fx_training_example] (Some [])
    <> join [10%N] (map (claimed_line (Some [])) [fx_training_example]).
Proof. vm_compute. discriminate. Qed.

(** C9 (amended). For every list of examples and optional system prompt,
    [formatExamplesToJSONL] joins with single [\n] one line per example,
    the [JSON.stringify] of [{messages: [...]}] with a leading system
    message exactly when the prompt is a non-empty string, then the user
    message with the input and the assistant message with the rewrite
    when non-null and the output otherwise; no line contains a [\n], so
    splitting the result at [\n] gives back exactly these lines (one
    empty line when there is no example). *)
Theorem formatExamplesToJSONL_lines exs sp :
  formatExamplesToJSONL exs sp = join [10%N] (map (expected_line sp) exs) /\
  Forall no_newline (map (expected_line sp) exs) /\
  split_lines (formatExamplesToJSONL exs sp) =
    match exs with [] => [[]] | _ => map (expected_line sp) exs end.
Proof.
  assert (Heq : formatExamplesToJSONL exs sp = join [10%N] (map (expected_line sp) exs)).
  { unfold formatExamplesToJSONL. f_equal. apply map_ext. intros ex.
    unfold expected_line, assistant_text. destruct sp as [[|c cs]|]; reflexivity. }
  assert (Hnn : Forall no_newline (map (expected_line sp) exs)).
  { apply Forall_forall. intros line Hin. apply in_map_iff in Hin as [ex [<- _]].
    apply stringify_nn. }
  split; [exact Heq|]. split; [exact Hnn|].
  rewrite Heq. destruct exs as [|ex exs]; [reflexivity|].
  apply split_lines_join; [discriminate|exact Hnn].
Qed.

(** ** C6: the aggregate of a run without scored items *)

Lemma rows_of_unscored gen_uuid k recs :
  Forall (fun r => preferred r = None /\ model_score r = None /\ baseline_score r = None)
         (rows_of gen_uuid k recs).
Proof.
  revert k; induction recs as [|r t IH]; intros k; simpl; constructor; auto.
Qed.

Lemma step_keeps_clean st st' :
  step st st' -> Forall unscored_clean (evaluations st) -> Forall unscored_clean (evaluations st').
Proof.
  intros Hs H. destruct Hs.
  - destruct (startEvaluation provider gen_uuid st pid a b) as [res st'] eqn:E. simpl.
    destruct (startEvaluation_outcome _ _ _ _ _ _ _ _ E)
      as [[e [_ ->]] | (id & project & apiKey & sd & ma & mb & recs & _ & _ & _ & _ & _ & _ &
                         _ & _ & _ & _ & ->)]; [exact H|].
    simpl. apply Forall_app; split; [exact H|].
    eapply Forall_impl; [|apply rows_of_unscored]. intros r (Hp & Hm & Hb) _. auto.
  - unfold saveEvaluationScore. destruct (user st) as [uid|]; [|exact H].
    destruct (_ && _); [exact H|]. simpl.
    apply Forall_forall. intros r Hin. apply in_map_iff in Hin as [r0 [<- Hin]].
    destruct (jseqb (ev_id r0) id).
    + intros Hp. discriminate.
    + exact (proj1 (Forall_forall _ _) H r0 Hin).
  - unfold rateExample. destruct (user st); [|exact H]. destruct (_ && _); exact H.
  - unfold deleteProject. destruct (user st); [|exact H]. simpl.
    apply Forall_forall. intros r Hin. apply filter_In in Hin as [Hin _].
    exact (proj1 (Forall_forall _ _) H r Hin).
  - unfold resplit. destruct (negb _); [exact H|]. destruct (locked_id st id); exact H.
  - exact H.
  - exact H.
  - exact H.
  - exact H.
Qed.

Lemma steps_keep_clean st0 st :
  steps st0 st -> Forall unscored_clean (evaluations st0) -> Forall unscored_clean (evaluations st).
Proof.
  induction 1 as [st|st1 st2 st3 Hs _ IH]; intros H; [exact H|].
  apply IH, (step_keeps_clean _ _ Hs H).
Qed.

Lemma aggregate_unscored rows :
  Forall (fun r => preferred r = None /\ model_score r = None /\ baseline_score r = None) rows ->
  modelWins (aggregate rows) = 0 /\ baselineWins (aggregate rows) = 0 /\
  ties (aggregate rows) = 0 /\
  avgModelScore (aggregate rows) = None /\ avgBaselineScore (aggregate rows) = None.
Proof.
  intros H.
  assert (Hc : forall p, count_pref p rows = 0).
  { intros p. unfold count_pref.
    induction H as [|r t (Hp & _ & _) _ IH]; [reflexivity|].
    simpl. rewrite Hp. destruct p; exact IH. }
  assert (Hm : somes (map model_score rows) = [] /\ somes (map baseline_score rows) = []).
  { clear Hc. induction H as [|r t Hr _ IH].
    - split; reflexivity.
    - destruct Hr as (_ & Hm & Hb). simpl. rewrite Hm, Hb. exact IH. }
  unfold aggregate; simpl. destruct Hm as [-> ->]. rewrite !Hc. auto.
Qed.

(** C6. Modelled from the spec ([getEvaluationResults]). In every store
    reached by the writes of [step] from one whose unpreferred rows carry
    no score (the empty store, for instance), a run none of whose rows has
    been scored reports [modelWins = baselineWins = ties = 0] and absent
    ([None], not [Some 0]) average model and baseline scores. *)
Theorem zero_scored_run_aggregate st0 st trid :
  Forall unscored_clean (evaluations st0) -> steps st0 st ->
  Forall (fun r => preferred r = None) (run_rows st trid) ->
  modelWins (getEvaluationResults st trid) = 0 /\
  baselineWins (getEvaluationResults st trid) = 0 /\
  ties (getEvaluationResults st trid) = 0 /\
  avgModelScore (getEvaluationResults st trid) = None /\
  avgBaselineScore (getEvaluationResults st trid) = None.
Proof.
  intros H0 Hs Hrun. unfold getEvaluationResults. apply aggregate_unscored.
  pose proof (steps_keep_clean _ _ Hs H0) as Hc.
  apply Forall_forall. intros r Hin.
  pose proof (proj1 (Forall_forall _ _) Hrun r Hin) as Hp.
  unfold run_rows in Hin. apply filter_In in Hin as [Hin _].
  destruct (proj1 (Forall_forall _ _) Hc r Hin Hp). auto.
Qed.

(** Witness: from [fx_db], which has no evaluation, one evaluation of
    [r1] against the baseline, none of whose rows has been scored. *)
Lemma zero_scored_run_aggregate_witness :
  modelWins (getEvaluationResults fx_db_evaluated (js "r1")) = 0 /\
  baselineWins (getEvaluationResults fx_db_evaluated (js "r1")) = 0 /\
  ties (getEvaluationResults fx_db_evaluated (js "r1")) = 0 /\
  avgModelScore (getEvaluationResults fx_db_evaluated (js "r1")) = None /\
  avgBaselineScore (getEvaluationResults fx_db_evaluated (js "r1")) = None.
Proof.
  apply (zero_scored_run_aggregate fx_db).
  - constructor.
  - unfold fx_db_evaluated. eapply steps_step; [apply StepStart|apply steps_refl].
  - vm_compute. repeat constructor.
Defined.

(** ** Extra: the export reads back *)

Lemma hex_digit_value d : (d < 16)%N -> hex_value (hex_digit d) = Some d.
Proof.
  intros H. unfold hex_value, hex_digit.
  destruct (N.ltb_spec d 10);
  repeat match goal with |- context [N.leb ?a ?b] => destruct (N.leb_spec a b) end;
  cbn [andb]; try lia; f_equal; lia.
Qed.

Lemma hex_recombine c : (c < 65536)%N ->
  (4096 * ((c / 4096) mod 16) + 256 * ((c / 256) mod 16) + 16 * ((c / 16) mod 16) + c mod 16
   = c)%N.
Proof.
  intros Hc.
  assert (E0 := N.div_mod c 16 ltac:(discriminate)).
  assert (E1 := N.div_mod (c / 16) 16 ltac:(discriminate)).
  assert (E2 := N.div_mod (c / 256) 16 ltac:(discriminate)).
  rewrite N.Div0.div_div in E1. simpl (16 * 16)%N in E1.
  rewrite N.Div0.div_div in E2. simpl (256 * 16)%N in E2.
  assert (Hq : (c / 4096 < 16)%N) by (apply N.Div0.div_lt_upper_bound; lia).
  rewrite (N.mod_small (c / 4096) 16 Hq).
  remember (c / 4096)%N as q3; remember (c / 256)%N as q2; remember (c / 16)%N as q1.
  remember (q2 mod 16)%N as r2; remember (q1 mod 16)%N as r1; remember (c mod 16)%N as r0.
  clear Heqq3 Heqq2 Heqq1 Heqr2 Heqr1 Heqr0. lia.
Qed.

Lemma parse_chars_unicode c tail : (c < 65536)%N ->
  parse_chars (unicode_escape c ++ tail) =
  match parse_chars tail with Some (r, rem) => Some (c :: r, rem) | None => None end.
Proof.
  intros Hc. unfold unicode_escape. cbn [app parse_chars].
  rewrite !hex_digit_value by (apply N.mod_lt; discriminate).
  cbn -[N.mul N.add N.div N.modulo]. rewrite hex_recombine by exact Hc. reflexivity.
Qed.

Lemma parse_chars_unit c tail :
  parse_chars (escape_unit c ++ tail) =
  match parse_chars tail with Some (r, rem) => Some (c :: r, rem) | None => None end.
Proof.
  unfold escape_unit.
  destruct (N.eqb_spec c 8) as [->|H8]; [reflexivity|].
  destruct (N.eqb_spec c 9) as [->|H9]; [reflexivity|].
  destruct (N.eqb_spec c 10) as [->|H10]; [reflexivity|].
  destruct (N.eqb_spec c 12) as [->|H12]; [reflexivity|].
  destruct (N.eqb_spec c 13) as [->|H13]; [reflexivity|].
  destruct (N.eqb_spec c 34) as [->|H34]; [reflexivity|].
  destruct (N.eqb_spec c 92) as [->|H92]; [reflexivity|].
  destruct (N.ltb_spec c 32) as [Hlt|Hge].
  - apply parse_chars_unicode. lia.
  - cbn [app parse_chars].
    rewrite (proj2 (N.eqb_neq c 34) H34), (proj2 (N.eqb_neq c 92) H92).
    destruct (N.ltb_spec c 32); [lia|]. reflexivity.
Qed.

Lemma is_high_range c : is_high c = true -> (55296 <= c <= 56319)%N.
Proof. unfold is_high. rewrite andb_true_iff, !N.leb_le. lia. Qed.

Lemma is_low_range c : is_low c = true -> (56320 <= c <= 57343)%N.
Proof. unfold is_low. rewrite andb_true_iff, !N.leb_le. lia. Qed.

(** A unit of at least [32], neither a quote nor a backslash, is read as
    itself. *)
Lemma parse_chars_plain c tail : (32 <= c)%N -> c <> 34%N -> c <> 92%N ->
  parse_chars (c :: tail) =
  match parse_chars tail with Some (r, rem) => Some (c :: r, rem) | None => None end.
Proof.
  intros Hge H34 H92. cbn [parse_chars].
  rewrite (proj2 (N.eqb_neq c 34) H34), (proj2 (N.eqb_neq c 92) H92).
  destruct (N.ltb_spec c 32); [lia|]. reflexivity.
Qed.

Lemma parse_chars_escape_bound n s tail :
  List.length s <= n -> parse_chars (escape s ++ 34%N :: tail) = Some (s, tail).
Proof.
  revert s; induction n as [|n IH]; intros [|c rest] Hl; simpl in Hl; try lia;
    try reflexivity.
  cbn [escape]. destruct (is_high c) eqn:Hh.
  - apply is_high_range in Hh.
    destruct rest as [|d rest'].
    + rewrite parse_chars_unicode by lia. reflexivity.
    + destruct (is_low d) eqn:Hd.
      * apply is_low_range in Hd. cbn [app].
        rewrite parse_chars_plain by lia. rewrite parse_chars_plain by lia.
        rewrite IH by (simpl in Hl; lia). reflexivity.
      * rewrite <- app_assoc, parse_chars_unicode by lia.
        rewrite IH by lia. reflexivity.
  - destruct (is_low c) eqn:Hlow.
    + apply is_low_range in Hlow.
      rewrite <- app_assoc, parse_chars_unicode by lia. rewrite IH by lia. reflexivity.
    + rewrite <- app_assoc, parse_chars_unit. rewrite IH by lia. reflexivity.
Qed.

Lemma parse_chars_escape s tail : parse_chars (escape s ++ 34%N :: tail) = Some (s, tail).
Proof. apply (parse_chars_escape_bound (List.length s)). lia. Qed.

(** A serialized value starts with a quote, a bracket or a brace. *)
Lemma stringify_head j :
  exists c t, stringify j = c :: t /\ (c = 34%N \/ c = 91%N \/ c = 123%N).
Proof.
  destruct j; cbn [stringify]; unfold quote; do 2 eexists; (split; [reflexivity|]); auto.
Qed.

Lemma join_cons_cons sep x y t : join sep (x :: y :: t) = x ++ sep ++ join sep (y :: t).
Proof. reflexivity. Qed.

Lemma parse_stringify : forall j n rest,
  List.length (stringify j) <= n -> parse_value n (stringify j ++ rest) = Some (j, rest).
Proof.
  fix IH 1. intros [s|l|kvs] n rest Hn.
  - destruct n as [|m]; [simpl in Hn; lia|].
    cbn [stringify]. unfold quote. rewrite <- !app_assoc. cbn [app parse_value].
    simpl (34 =? 34)%N. cbv iota. rewrite parse_chars_escape. reflexivity.
  - destruct n as [|m]; [simpl in Hn; lia|].
    destruct l as [|v l]; [reflexivity|].
    assert (Hel : forall l, l <> [] -> forall m rest,
              S (List.length (join [44%N] (map stringify l))) <= m ->
              parse_elems m (join [44%N] (map stringify l) ++ 93%N :: rest) = Some (l, rest)).
    { clear -IH. fix IHl 1. intros [|v t] Hne m rest Hm; [contradiction|].
      destruct m as [|m]; [lia|].
      pose proof (IHl t) as IHt. clear IHl.
      destruct t as [|w t].
      - cbn [map join] in *. cbn [parse_elems].
        rewrite IH by lia. reflexivity.
      - cbn [map] in *. rewrite join_cons_cons in *.
        rewrite length_app in Hm. cbn [parse_elems].
        rewrite <- app_assoc. cbn [app].
        rewrite IH by lia. cbn [N.eqb Pos.eqb].
        rewrite length_app in Hm. cbn [List.length] in Hm.
        rewrite IHt by (try discriminate; lia). reflexivity. }
    cbn [stringify] in *. rewrite !length_app in Hn. cbn [List.length] in Hn.
    rewrite <- !app_assoc. cbn [app].
    assert (He : parse_elems m (join [44%N] (map stringify (v :: l)) ++ 93%N :: rest)
                 = Some (v :: l, rest)) by (apply Hel; [discriminate|lia]).
    destruct (stringify_head v) as (c & t & Hv & Hc).
    assert (Hj : exists t', join [44%N] (map stringify (v :: l)) = c :: t').
    { destruct l; cbn [map join]; rewrite Hv; eexists; reflexivity. }
    destruct Hj as [t' Ht'].
    remember (join [44%N] (map stringify (v :: l)) ++ 93%N :: rest) as u eqn:Hu.
    rewrite Ht' in Hu. cbn [app] in Hu. subst u.
    cbn [parse_value]. cbn [N.eqb Pos.eqb].
    destruct Hc as [-> | [-> | ->]]; cbn [N.eqb Pos.eqb]; rewrite He; reflexivity.
  - destruct n as [|m]; [simpl in Hn; lia|].
    destruct kvs as [|[k v] kvs]; [reflexivity|].
    assert (Hmem : forall kvs, kvs <> [] -> forall m rest,
              S (List.length (join [44%N] (map (fun kv => quote (fst kv) ++ [58%N] ++ stringify (snd kv)) kvs))) <= m ->
              parse_members m (join [44%N] (map (fun kv => quote (fst kv) ++ [58%N] ++ stringify (snd kv)) kvs)
                               ++ 125%N :: rest) = Some (kvs, rest)).
    { clear -IH. fix IHk 1. intros [|[k v] t] Hne m rest Hm; [contradiction|].
      destruct m as [|m]; [lia|].
      pose proof (IHk t) as IHt. clear IHk.
      destruct t as [|kv' t].
      - cbn [map join fst snd] in *. unfold quote in *.
        rewrite !length_app in Hm. cbn [List.length] in Hm.
        rewrite <- !app_assoc. cbn [app parse_members]. cbn [N.eqb Pos.eqb].
        rewrite parse_chars_escape. cbn [N.eqb Pos.eqb].
        rewrite IH by lia. reflexivity.
      - cbn [map fst snd] in *. rewrite join_cons_cons in *.
        set (J := join [44%N] _) in *. clearbody J. unfold quote.
        rewrite !length_app in Hm. cbn [List.length] in Hm.
        rewrite <- !app_assoc. cbn [app parse_members]. cbn [N.eqb Pos.eqb].
        rewrite parse_chars_escape. cbn [N.eqb Pos.eqb].
        rewrite IH by lia. cbn [N.eqb Pos.eqb].
        rewrite IHt by (try discriminate; lia). reflexivity. }
    cbn [stringify] in *. rewrite !length_app in Hn. cbn [List.length] in Hn.
    assert (He : parse_members m (join [44%N] (map (fun kv => quote (fst kv) ++ [58%N] ++ stringify (snd kv)) ((k, v) :: kvs))
                                  ++ 125%N :: rest) = Some ((k, v) :: kvs, rest))
      by (apply Hmem; [discriminate|lia]).
    assert (Hj : exists t', join [44%N] (map (fun kv => quote (fst kv) ++ [58%N] ++ stringify (snd kv)) ((k, v) :: kvs))
                            = 34%N :: t').
    { destruct kvs; cbn [map join fst snd]; unfold quote; cbn [app]; eexists; reflexivity. }
    destruct Hj as [t' Ht']. rewrite Ht' in He |- *. cbn [app] in He.
    rewrite <- !app_assoc. cbn [app].
    cbn [parse_value]. cbn [N.eqb Pos.eqb]. rewrite He. reflexivity.
Qed.

(** Extra. [JSON.parse] reads back every text [JSON.stringify] writes:
    strings (with their escapes and surrogate pairs), arrays and objects
    come back as the value that was written. *)
Theorem json_parse_stringify j : json_parse (stringify j) = Some j.
Proof.
  unfold json_parse. rewrite <- (app_nil_r (stringify j)) at 2.
  rewrite parse_stringify by lia. reflexivity.
Qed.

Lemma formatExamplesToJSONL_eq exs sp :
  formatExamplesToJSONL exs sp = join [10%N] (map (fun ex => stringify (line_json sp ex)) exs).
Proof.
  unfold formatExamplesToJSONL. f_equal. apply map_ext. intros ex.
  unfold line_json, assistant_text. destruct sp as [[|c cs]|]; reflexivity.
Qed.

(** Extra. Reading the export of [formatExamplesToJSONL] back line by
    line with [JSON.parse] gives, for each example in order, the object
    [{messages: [...]}] with the system message when the prompt is a
    non-empty string, the user message with the input and the assistant
    message with the rewrite, or the output when the rewrite is null; an
    export of no example is the empty text, whose single line does not
    parse. *)
Theorem formatExamplesToJSONL_parse exs sp :
  map json_parse (split_lines (formatExamplesToJSONL exs sp)) =
    match exs with
    | [] => [None]
    | _ => map (fun ex => Some (line_json sp ex)) exs
    end.
Proof.
  rewrite formatExamplesToJSONL_eq. destruct exs as [|ex exs]; [reflexivity|].
  rewrite split_lines_join.
  - rewrite map_map. apply map_ext. intros e. apply json_parse_stringify.
  - discriminate.
  - apply Forall_forall. intros line Hin. apply in_map_iff in Hin as [e [<- _]].
    apply stringify_nn.
Qed.

(** ** Extra: the comparison screen *)

Lemma find_index_from_some {A} (p : nat -> A -> bool) i l j :
  find_index_from p i l = Some j ->
  i <= j /\ (exists x, nth_error l (j - i) = Some x /\ p j x = true) /\
  (forall k y, i <= k < j -> nth_error l (k - i) = Some y -> p k y = false).
Proof.
  revert i; induction l as [|x t IH]; intros i H; simpl in H; [discriminate|].
  destruct (p i x) eqn:Hp.
  - injection H as <-. rewrite Nat.sub_diag. split; [lia|]. split; [exists x; split; [reflexivity|exact Hp]|]. intros; lia.
  - destruct (IH _ H) as (Hij & (y & Hy & Hpy) & Hmin). split; [lia|]. split.
    + exists y. replace (j - i) with (S (j - S i)) by lia. simpl. auto.
    + intros k z Hk Hz. destruct (Nat.eq_dec k i) as [->|Hne].
      * rewrite Nat.sub_diag in Hz. simpl in Hz. injection Hz as <-. exact Hp.
      * replace (k - i) with (S (k - S i)) in Hz by lia. simpl in Hz. apply (Hmin k z); [lia|exact Hz].
Qed.

Lemma find_index_from_none {A} (p : nat -> A -> bool) i l :
  find_index_from p i l = None ->
  forall k y, i <= k -> nth_error l (k - i) = Some y -> p k y = false.
Proof.
  revert i; induction l as [|x t IH]; intros i H k y Hk Hy; simpl in H.
  - destruct (k - i); discriminate.
  - destruct (p i x) eqn:Hp; [discriminate|].
    destruct (Nat.eq_dec k i) as [->|Hne].
    + rewrite Nat.sub_diag in Hy. simpl in Hy. injection Hy as <-. exact Hp.
    + replace (k - i) with (S (k - S i)) in Hy by lia. simpl in Hy. apply (IH _ H k y); [lia|exact Hy].
Qed.

Lemma every_from_true {A} (p : nat -> A -> bool) i l :
  every_from p i l = true ->
  forall k y, i <= k -> nth_error l (k - i) = Some y -> p k y = true.
Proof.
  revert i; induction l as [|x t IH]; intros i H k y Hk Hy; simpl in H.
  - destruct (k - i); discriminate.
  - apply andb_prop in H as [Hx Ht].
    destruct (Nat.eq_dec k i) as [->|Hne].
    + rewrite Nat.sub_diag in Hy. simpl in Hy. injection Hy as <-. exact Hx.
    + replace (k - i) with (S (k - S i)) in Hy by lia. simpl in Hy. apply (IH _ Ht k y); [lia|exact Hy].
Qed.

Lemma every_from_false {A} (p : nat -> A -> bool) i l :
  every_from p i l = false ->
  exists k y, i <= k /\ nth_error l (k - i) = Some y /\ p k y = false.
Proof.
  revert i; induction l as [|x t IH]; intros i H; simpl in H; [discriminate|].
  destruct (p i x) eqn:Hx.
  - destruct (IH _ H) as (k & y & Hk & Hy & Hp). exists k, y. split; [lia|]. split; [|exact Hp].
    replace (k - i) with (S (k - S i)) by lia. exact Hy.
  - exists i, x. rewrite Nat.sub_diag. auto.
Qed.

Lemma after_success_spec items cur eid :
  match after_success items cur eid with
  | Redirect path =>
      path = js "/eval/" ++ eid ++ js "/results" /\
      forall k it, nth_error items k = Some it -> k <> cur -> is_unscored it = false
  | MoveTo j =>
      j <> cur /\ (exists it, nth_error items j = Some it /\ is_unscored it = true) /\
      ((cur < j /\ forall k it, cur < k < j -> nth_error items k = Some it -> is_unscored it = false) \/
       (j < cur /\ forall k it, k < j \/ cur < k -> nth_error items k = Some it -> is_unscored it = false))
  | Stay => False
  end.
Proof.
  unfold after_success, findIndex.
  destruct (every_from _ 0 items) eqn:He.
  - split; [reflexivity|]. intros k it Hk Hne.
    pose proof (every_from_true _ _ _ He k it) as H. rewrite Nat.sub_0_r in H.
    specialize (H ltac:(lia) Hk). apply Nat.eqb_neq in Hne. rewrite Hne in H.
    destruct (is_unscored it); [discriminate|reflexivity].
  - destruct (every_from_false _ _ _ He) as (k0 & y0 & _ & Hy0 & Hp0). rewrite Nat.sub_0_r in Hy0.
    apply orb_false_iff in Hp0 as [Hk0 Hu0]. apply Nat.eqb_neq in Hk0. apply negb_false_iff in Hu0.
    destruct (find_index_from _ 0 items) as [j|] eqn:Hf1.
    + destruct (find_index_from_some _ _ _ _ Hf1) as (_ & (x & Hx & Hpx) & Hmin).
      rewrite Nat.sub_0_r in Hx. apply andb_prop in Hpx as [Hlt Hux]. apply Nat.ltb_lt in Hlt.
      split; [lia|]. split; [eauto|]. left. split; [exact Hlt|].
      intros k it Hk Hit. pose proof (Hmin k it ltac:(lia)) as Hm. rewrite Nat.sub_0_r in Hm.
      specialize (Hm Hit). apply andb_false_iff in Hm as [Hm|Hm]; [apply Nat.ltb_ge in Hm; lia|exact Hm].
    + pose proof (find_index_from_none _ _ _ Hf1) as Hnone.
      destruct (find_index_from (fun _ item => is_unscored item) 0 items) as [j|] eqn:Hf2.
      * destruct (find_index_from_some _ _ _ _ Hf2) as (_ & (x & Hx & Hux) & Hmin).
        rewrite Nat.sub_0_r in Hx.
        assert (Hjk : j <= k0).
        { destruct (le_lt_dec j k0) as [|Hlt]; [assumption|].
          pose proof (Hmin k0 y0 ltac:(lia)) as Hm. rewrite Nat.sub_0_r in Hm.
          rewrite (Hm Hy0) in Hu0. discriminate. }
        assert (Hk0c : k0 < cur).
        { destruct (le_lt_dec cur k0) as [Hle|]; [|assumption].
          pose proof (Hnone k0 y0 ltac:(lia)) as Hm. rewrite Nat.sub_0_r in Hm.
          specialize (Hm Hy0). rewrite Hu0, andb_true_r in Hm. apply Nat.ltb_ge in Hm. lia. }
        split; [lia|]. split; [eauto|]. right. split; [lia|].
        intros k it [Hk|Hk] Hit.
        -- pose proof (Hmin k it ltac:(lia)) as Hm. rewrite Nat.sub_0_r in Hm. exact (Hm Hit).
        -- pose proof (Hnone k it ltac:(lia)) as Hm. rewrite Nat.sub_0_r in Hm.
           specialize (Hm Hit). apply Nat.ltb_lt in Hk. rewrite Hk in Hm. exact Hm.
      * pose proof (find_index_from_none _ _ _ Hf2 k0 y0 ltac:(lia)) as Hm.
        rewrite Nat.sub_0_r in Hm. rewrite (Hm Hy0) in Hu0. discriminate.
Qed.

(** Extra. A successful save on the comparison screen ([handlePreference]
    answered [success]) comes from saving the current item with the
    screen's [is_a_model], and then either goes to the results page of the
    evaluation, when every other item of the rendered list is scored, or
    moves to another unscored item: the next one after the current index,
    wrapping around to the first one; it never stays where it was. *)
Theorem handlePreference_next_item st items cur isSaving eid p sa sb a st' :
  handlePreference st items cur isSaving eid p sa sb = (UiAfter a, st') ->
  isSaving = false /\
  (exists it, nth_error items cur = Some it /\
     saveEvaluationScore st (item_id it) (is_a_model it) p sa sb = (SaveOk, st')) /\
  match a with
  | Redirect path =>
      path = js "/eval/" ++ eid ++ js "/results" /\
      forall k it, nth_error items k = Some it -> k <> cur -> is_unscored it = false
  | MoveTo j =>
      j <> cur /\ (exists it, nth_error items j = Some it /\ is_unscored it = true) /\
      ((cur < j /\ forall k it, cur < k < j -> nth_error items k = Some it -> is_unscored it = false) \/
       (j < cur /\ forall k it, k < j \/ cur < k -> nth_error items k = Some it -> is_unscored it = false))
  | Stay => False
  end.
Proof.
  unfold handlePreference. destruct isSaving; [discriminate|].
  destruct (nth_error items cur) as [it|] eqn:Hit; [|discriminate].
  destruct (saveEvaluationScore st _ _ p sa sb) as [[|e] st''] eqn:Hs; intros H; [|discriminate].
  injection H as <- <-. split; [reflexivity|]. split; [eauto|].
  apply after_success_spec.
Qed.

Lemma handlePreference_redirect st items cur isSaving eid p sa sb path st' :
  handlePreference st items cur isSaving eid p sa sb = (UiAfter (Redirect path), st') ->
  forall k it, nth_error items k = Some it -> k <> cur -> is_unscored it = false.
Proof.
  unfold handlePreference. destruct isSaving; [discriminate|].
  destruct (nth_error items cur) as [it|]; [|discriminate].
  destruct (saveEvaluationScore st _ _ p sa sb) as [[|e] st''] eqn:Hs; intros H; [|discriminate].
  injection H as Ha _. pose proof (after_success_spec items cur eid) as Hs'.
  rewrite Ha in Hs'. apply Hs'.
Qed.

(** Extra. The comparison screen never reloads its items: when the list it
    was rendered with has two unscored items, no sequence of choices on
    the screen ever reaches the results page, however many saves succeed
    (the items scored during the session still count as unscored). *)
Theorem session_never_redirects st items cur eid choices i1 i2 it1 it2 :
  i1 <> i2 -> nth_error items i1 = Some it1 -> nth_error items i2 = Some it2 ->
  is_unscored it1 = true -> is_unscored it2 = true ->
  forall path, ~ In (UiAfter (Redirect path)) (fst (session st items cur eid choices)).
Proof.
  intros Hne H1 H2 U1 U2 path. revert st cur.
  induction choices as [|[[p sa] sb] cs IH]; intros st cur; cbn [session fst In]; [tauto|].
  destruct (handlePreference st items cur false eid p sa sb) as [o st'] eqn:Hh.
  assert (Hno : o <> UiAfter (Redirect path)).
  { intros ->. pose proof (handlePreference_redirect _ _ _ _ _ _ _ _ _ _ Hh) as Hr.
    destruct (Nat.eq_dec i1 cur) as [->|N1].
    - rewrite (Hr i2 it2 H2 (fun e => Hne (eq_sym e))) in U2. discriminate.
    - rewrite (Hr i1 it1 H1 N1) in U1. discriminate. }
  destruct o as [| | |[q|j|]].
  - destruct (session st' items cur eid cs) as [os st''] eqn:Hs. simpl.
    intros [H|H]; [discriminate|]. specialize (IH st' cur). rewrite Hs in IH. contradiction.
  - destruct (session st' items cur eid cs) as [os st''] eqn:Hs. simpl.
    intros [H|H]; [discriminate|]. specialize (IH st' cur). rewrite Hs in IH. contradiction.
  - destruct (session st' items cur eid cs) as [os st''] eqn:Hs. simpl.
    intros [H|H]; [discriminate|]. specialize (IH st' cur). rewrite Hs in IH. contradiction.
  - simpl. intros [H|H]; [congruence|contradiction].
  - destruct (session st' items j eid cs) as [os st''] eqn:Hs. simpl.
    intros [H|H]; [discriminate|]. specialize (IH st' j). rewrite Hs in IH. contradiction.
  - destruct (session st' items cur eid cs) as [os st''] eqn:Hs. simpl.
    intros [H|H]; [discriminate|]. specialize (IH st' cur). rewrite Hs in IH. contradiction.
Qed.

Lemma handlePreference_next_item_witness :
  handlePreference fx_db_evaluated fx_items 0 false (js "r1") PrefA None None
    = (UiAfter (MoveTo 1),
       snd (handlePreference fx_db_evaluated fx_items 0 false (js "r1") PrefA None None)) /\
  (false = false /\
   (exists it, nth_error fx_items 0 = Some it /\
      saveEvaluationScore fx_db_evaluated (item_id it) (is_a_model it) PrefA None None
      = (SaveOk, snd (handlePreference fx_db_evaluated fx_items 0 false (js "r1") PrefA None None))) /\
   (1 <> 0 /\ (exists it, nth_error fx_items 1 = Some it /\ is_unscored it = true) /\
    ((0 < 1 /\ forall k it, 0 < k < 1 -> nth_error fx_items k = Some it -> is_unscored it = false) \/
     (1 < 0 /\ forall k it, k < 1 \/ 0 < k -> nth_error fx_items k = Some it -> is_unscored it = false)))).
Proof.
  assert (H : handlePreference fx_db_evaluated fx_items 0 false (js "r1") PrefA None None
    = (UiAfter (MoveTo 1),
       snd (handlePreference fx_db_evaluated fx_items 0 false (js "r1") PrefA None None)))
    by (vm_compute; reflexivity).
  split; [exact H|].
  exact (handlePreference_next_item _ _ _ _ _ _ _ _ _ _ H).
Defined.

Lemma session_never_redirects_witness :
  0 <> 1 /\ (exists it1 it2, nth_error fx_items 0 = Some it1 /\ nth_error fx_items 1 = Some it2 /\
    is_unscored it1 = true /\ is_unscored it2 = true) /\
  forall path, ~ In (UiAfter (Redirect path))
    (fst (session fx_db_evaluated fx_items 0 (js "r1")
            [(PrefA, Some 7%Z, None); (PrefB, None, None); (PrefTie, None, None)])).
Proof.
  split; [discriminate|]. split.
  - vm_compute. eexists _, _. split; [reflexivity|]. split; [reflexivity|]. split; reflexivity.
  - intros path.
    destruct (nth_error fx_items 0) as [it1|] eqn:H1; [|vm_compute in H1; discriminate].
    destruct (nth_error fx_items 1) as [it2|] eqn:H2; [|vm_compute in H2; discriminate].
    apply (session_never_redirects _ _ _ _ _ 0 1 it1 it2); auto;
      [vm_compute in H1; injection H1 as <-; reflexivity
      |vm_compute in H2; injection H2 as <-; reflexivity].
Defined.

(** ** Extra: scoring edge cases *)




(** Extra. Saving a score outside [1..10] for the model or the baseline
    side on an existing row fails with the check constraint error and
    leaves the store as it was: no row of that id gets the preference. *)
Theorem saveEvaluationScore_out_of_range st id (isA : bool) p (sa sb : option Z) r uid :
  user st = Some uid -> In r (evaluations st) -> ev_id r = id ->
  score_ok (if isA then sa else sb) = false \/ score_ok (if isA then sb else sa) = false ->
  saveEvaluationScore st id isA p sa sb = (SaveErr (js "check constraint violated"), st).
Proof.
  intros Hu Hr Hid Hs. unfold saveEvaluationScore. rewrite Hu.
  assert (He : existsb (fun r => jseqb (ev_id r) id) (evaluations st) = true).
  { apply existsb_exists. exists r. split; [exact Hr|]. apply jseqb_eq. exact Hid. }
  rewrite He. unfold build_update. cbn [upd_model_score upd_baseline_score].
  destruct Hs as [Hs|Hs]; rewrite Hs; [reflexivity|]. rewrite andb_false_r. reflexivity.
Qed.

(** Extra. Scoring never changes what was generated or what a row refers
    to: after any call of [saveEvaluationScore] the session, the projects,
    the examples, the training runs and the id supply are the same, and
    every row keeps its id, project, run, example and both outputs, in
    the same order. *)
Theorem saveEvaluationScore_keeps_outputs st id isA p sa sb res st' :
  saveEvaluationScore st id isA p sa sb = (res, st') ->
  user st' = user st /\ projects st' = projects st /\ examples st' = examples st /\
  training_runs st' = training_runs st /\ uuid_counter st' = uuid_counter st /\
  Forall2 same_content (evaluations st') (evaluations st).
Proof.
  assert (Hrefl : forall l, Forall2 same_content l l).
  { induction l; constructor; auto. repeat split. }
  unfold saveEvaluationScore. destruct (user st) as [uid|] eqn:Hu.
  - destruct (_ && _); intros H; injection H as _ <-.
    + repeat split; try reflexivity; try exact Hu. apply Hrefl.
    + cbn. repeat split; try reflexivity; try exact Hu.
      generalize (evaluations st). intros l. induction l as [|r t IH]; constructor; auto.
      destruct (jseqb (ev_id r) id); repeat split.
  - intros H; injection H as _ <-. repeat split; try reflexivity; try exact Hu. apply Hrefl.
Qed.

(** Extra. A save that gives no score for a side keeps the score that
    side had: after a successful [saveEvaluationScore] without [scoreA]
    and [scoreB], every row of the id has its earlier model and baseline
    scores, the converted preference and the session user as scorer. *)
Theorem saveEvaluationScore_keeps_scores st id isA p st' uid :
  user st = Some uid ->
  saveEvaluationScore st id isA p None None = (SaveOk, st') ->
  Forall2 (fun r' r =>
      if jseqb (ev_id r) id
      then model_score r' = model_score r /\ baseline_score r' = baseline_score r /\
           preferred r' = Some (modelPreferred_of isA p) /\ scored_by r' = Some uid
      else r' = r)
    (evaluations st') (evaluations st).
Proof.
  intros Hu Hs. destruct (saveEvaluationScore_ok _ _ _ _ _ _ _ Hs) as (uid' & Hu' & He & _).
  rewrite Hu in Hu'. injection Hu' as <-. rewrite He. clear He Hs.
  induction (evaluations st) as [|r t IH]; constructor; auto.
  destruct (jseqb (ev_id r) id); [|reflexivity].
  unfold apply_update, build_update. cbn. destruct isA; repeat split.
Qed.


Lemma saveEvaluationScore_out_of_range_witness :
  saveEvaluationScore fx_db_evaluated (js "u0") true PrefB (Some 11%Z) (Some 5%Z)
    = (SaveErr (js "check constraint violated"), fx_db_evaluated).
Proof.
  apply (saveEvaluationScore_out_of_range _ _ _ _ _ _ fx_row_u0 (js "rater")).
  - reflexivity.
  - vm_compute. left. reflexivity.
  - vm_compute. reflexivity.
  - left. reflexivity.
Defined.

Lemma saveEvaluationScore_keeps_outputs_witness :
  user fx_db_scored = user fx_db_evaluated /\ projects fx_db_scored = projects fx_db_evaluated /\
  examples fx_db_scored = examples fx_db_evaluated /\
  training_runs fx_db_scored = training_runs fx_db_evaluated /\
  uuid_counter fx_db_scored = uuid_counter fx_db_evaluated /\
  Forall2 same_content (evaluations fx_db_scored) (evaluations fx_db_evaluated).
Proof.
  apply (saveEvaluationScore_keeps_outputs fx_db_evaluated (js "u0") false PrefA (Some 7%Z) (Some 4%Z)
           SaveOk).
  vm_compute. reflexivity.
Defined.

Lemma saveEvaluationScore_keeps_scores_witness :
  Forall2 (fun r' r =>
      if jseqb (ev_id r) (js "u0")
      then model_score r' = model_score r /\ baseline_score r' = baseline_score r /\
           preferred r' = Some (modelPreferred_of true PrefTie) /\ scored_by r' = Some (js "rater")
      else r' = r)
    (evaluations (snd (saveEvaluationScore fx_db_scored (js "u0") true PrefTie None None)))
    (evaluations fx_db_scored).
Proof.
  apply saveEvaluationScore_keeps_scores.
  - reflexivity.
  - vm_compute. reflexivity.
Defined.

(** ** Extra: rating and the rating queue *)


Lemma rateExample_ok st id r w now st' :
  rateExample st id r w now = (Ok tt, st') ->
  exists uid, user st = Some uid /\ user st' = Some uid /\
    (existsb (fun e => jseqb (ex_id e) id) (examples st) = true -> score_ok (Some r) = true) /\
    examples st' =
      map (fun e => if jseqb (ex_id e) id
                    then mkExample (ex_id e) (ex_project e) (input e) (output e)
                           (match w with Some x => Some x | None => ex_rewrite e end)
                           (Some r) (split e) (created_at e) (Some uid) (Some now)
                    else e) (examples st).
Proof.
  unfold rateExample. destruct (user st) as [uid|] eqn:Hu; [|discriminate].
  destruct (existsb _ _) eqn:Hx; destruct (score_ok (Some r)) eqn:Hs; cbn;
    intros H; try discriminate; injection H as <-; exists uid; repeat split; auto; discriminate.
Qed.


Lemma in_getExamples st pid q f l e :
  getExamples st pid q f = Ok l ->
  In e l <-> In e (examples st) /\ ex_project e = pid /\
             example_filter f (match q with Some t => t | None => 8%Z end) e = true.
Proof.
  unfold getExamples. destruct (user st); [|discriminate]. intros H; injection H as <-.
  rewrite filter_In, andb_true_iff, jseqb_eq. tauto.
Qed.

(** Extra. After a successful rating of an example by [rateExample], the
    rating queue ([getExamples]) of any project no longer lists it as
    unrated; it lists it below the threshold exactly when it belongs to
    that project and its new rating is below the project threshold
    ([8] when the project is not found); and it lists it as needing a
    rewrite exactly when it belongs to the project, no rewrite was given
    and it had none: giving a rewrite always takes it off that queue. *)
Theorem rateExample_then_getExamples st id r w now st' e pid q :
  rateExample st id r w now = (Ok tt, st') -> In e (examples st') -> ex_id e = id ->
  let threshold := match q with Some t => t | None => 8%Z end in
  rating e = Some r /\ (1 <= r <= 10)%Z /\
  match getExamples st' pid q FUnrated, getExamples st' pid q FBelowThreshold,
        getExamples st' pid q FNeedsRewrite with
  | Ok unrated, Ok below, Ok needs =>
      ~ In e unrated /\
      (In e below <-> ex_project e = pid /\ (r < threshold)%Z) /\
      (In e needs <-> ex_project e = pid /\ w = None /\ rewrite e = None)
  | _, _, _ => False
  end.
Proof.
  intros H He Hid threshold.
  destruct (rateExample_ok _ _ _ _ _ _ H) as (uid & Hu & Hu' & Hok & Hex).
  rewrite Hex in He. apply in_map_iff in He as (e0 & Heq & He0).
  destruct (jseqb (ex_id e0) id) eqn:E.
  2:{ subst e. apply jseqb_false in E. contradiction. }
  assert (Hr : score_ok (Some r) = true).
  { apply Hok, existsb_exists. exists e0. auto. }
  cbn in Hr. apply andb_prop in Hr as [Hr1 Hr2]. apply Z.leb_le in Hr1. apply Z.leb_le in Hr2.
  subst e. cbn [rating]. split; [reflexivity|]. split; [lia|].
  assert (Hin : forall f, exists l, getExamples st' pid q f = Ok l).
  { intros f. unfold getExamples. rewrite Hu'. eauto. }
  destruct (Hin FUnrated) as [l1 H1]. destruct (Hin FBelowThreshold) as [l2 H2].
  destruct (Hin FNeedsRewrite) as [l3 H3]. rewrite H1, H2, H3.
  assert (Hin' : In (mkExample (ex_id e0) (ex_project e0) (input e0) (output e0)
                       (match w with Some x => Some x | None => ex_rewrite e0 end)
                       (Some r) (split e0) (created_at e0) (Some uid) (Some now)) (examples st')).
  { rewrite Hex. apply in_map_iff. exists e0. rewrite E. auto. }
  split; [|split].
  - rewrite (in_getExamples _ _ _ _ _ _ H1). cbn. intros (_ & _ & Hf). discriminate.
  - rewrite (in_getExamples _ _ _ _ _ _ H2). cbn. rewrite Z.ltb_lt. tauto.
  - rewrite (in_getExamples _ _ _ _ _ _ H3). cbn [example_filter rating rewrite ex_project].
    unfold ex_rewrite in *. destruct w as [x|]; [|destruct (rewrite e0) as [x|]].
    + split; [intros (_ & _ & Hf); discriminate|intros (_ & Hw & _); discriminate].
    + split; [intros (_ & _ & Hf); discriminate|intros (_ & _ & Hw); discriminate].
    + split; [intros (_ & Hp & _); auto|intros (Hp & _ & _); repeat split; auto].
Qed.


Lemma rateExample_then_getExamples_witness :
  let st' := snd (rateExample fx_db (js "e1") 6%Z None 0%Z) in
  let e := hd (fx_example "none" 0 None 0) (examples st') in
  let threshold := 8%Z in
  rating e = Some 6%Z /\ (1 <= 6 <= 10)%Z /\
  match getExamples st' (js "p") (Some 8%Z) FUnrated, getExamples st' (js "p") (Some 8%Z) FBelowThreshold,
        getExamples st' (js "p") (Some 8%Z) FNeedsRewrite with
  | Ok unrated, Ok below, Ok needs =>
      ~ In e unrated /\
      (In e below <-> ex_project e = js "p" /\ (6 < threshold)%Z) /\
      (In e needs <-> ex_project e = js "p" /\ @None jsstr = None /\ rewrite e = None)
  | _, _, _ => False
  end.
Proof.
  intros st' e threshold.
  exact (rateExample_then_getExamples fx_db (js "e1") 6%Z None 0%Z st' e (js "p") (Some 8%Z)
           ltac:(vm_compute; reflexivity) ltac:(vm_compute; left; reflexivity)
           ltac:(vm_compute; reflexivity)).
Defined.

(** ** Extra: the model options of an evaluation *)

Lemma insert_desc_perm r l : Permutation (r :: l) (insert_desc r l).
Proof.
  induction l as [|x t IH]; simpl; [reflexivity|].
  destruct (run_created_at x <? run_created_at r)%Z; [reflexivity|].
  rewrite perm_swap. apply perm_skip. exact IH.
Qed.

Lemma sort_runs_desc_perm l : Permutation l (sort_runs_desc l).
Proof.
  induction l as [|x t IH]; simpl; [reflexivity|].
  rewrite <- insert_desc_perm. apply perm_skip. exact IH.
Qed.

Lemma insert_desc_hd x r t :
  HdRel newest_first x t -> newest_first x r -> HdRel newest_first x (insert_desc r t).
Proof.
  intros H Hr. destruct t as [|y t]; simpl; [constructor; exact Hr|].
  destruct (run_created_at y <? run_created_at r)%Z; constructor; [exact Hr|].
  inversion H; assumption.
Qed.

Lemma insert_desc_sorted r l : Sorted newest_first l -> Sorted newest_first (insert_desc r l).
Proof.
  induction l as [|x t IH]; intros H; simpl; [repeat constructor|].
  inversion H as [|x' t' Ht Hx]; subst.
  destruct (run_created_at x <? run_created_at r)%Z eqn:E.
  - apply Z.ltb_lt in E. constructor; [exact H|]. constructor. unfold newest_first. lia.
  - apply Z.ltb_ge in E. constructor; [apply IH; exact Ht|].
    apply insert_desc_hd; [exact Hx|]. unfold newest_first. lia.
Qed.

Lemma sort_runs_desc_sorted l : Sorted newest_first (sort_runs_desc l).
Proof.
  induction l as [|x t IH]; simpl; [constructor|]. apply insert_desc_sorted. exact IH.
Qed.

(** Extra. The model options of the evaluation setup ([getEvalSetupData])
    are the baseline option, with the project base model, followed by one
    fine-tuned option per completed training run of the project that has
    a model id, each exactly once, newest first. *)
Theorem getEvalSetupData_options st pid sd :
  getEvalSetupData st pid = Ok sd ->
  exists project runs,
    find_project st pid = Some project /\
    modelOptions sd =
      mkOption (js "baseline") MBaseline (base_model project)
      :: map (fun r => mkOption (run_id r) MFineTuned
                         (match model_id r with Some m => m | None => [] end)) runs /\
    Permutation runs
      (filter (fun r => jseqb (run_project r) pid && is_completed r && has_model_id r)
              (training_runs st)) /\
    Sorted newest_first runs /\
    valExampleCount sd = List.length (val_examples st pid).
Proof.
  unfold getEvalSetupData. destruct (user st); [|discriminate].
  destruct (find_project st pid) as [project|]; [|discriminate].
  intros H; injection H as <-. exists project, (completed_runs st pid). cbn.
  split; [reflexivity|]. split; [reflexivity|]. split; [|split; [apply sort_runs_desc_sorted|reflexivity]].
  symmetry. apply sort_runs_desc_perm.
Qed.

Lemma find_option_in opts id m : find_option opts id = Some m -> In m opts /\ opt_id m = id.
Proof.
  unfold find_option. intros H. split; [apply (find_some _ _ H)|].
  apply find_some in H as [_ H]. apply jseqb_eq. exact H.
Qed.

(** Extra. How [startEvaluation] resolves a selected id among the setup
    options: [baseline] always resolves to the baseline option with the
    project base model, and any other id that resolves is the id of a
    completed training run of the project whose model id is the option's
    model id. *)
Theorem getEvalSetupData_resolve st pid sd id m :
  getEvalSetupData st pid = Ok sd -> find_option (modelOptions sd) id = Some m ->
  exists project, find_project st pid = Some project /\
  if jseqb id (js "baseline")
  then m = mkOption (js "baseline") MBaseline (base_model project)
  else is_fine_tuned m = true /\
       exists r, In r (training_runs st) /\ run_id r = id /\ run_project r = pid /\
                 status r = Completed /\ model_id r = Some (opt_model_id m).
Proof.
  unfold getEvalSetupData. destruct (user st); [|discriminate].
  destruct (find_project st pid) as [project|]; [|discriminate].
  intros H; injection H as <-. cbn [modelOptions]. intros Hf. exists project. split; [reflexivity|].
  destruct (jseqb id (js "baseline")) eqn:Eb.
  - apply jseqb_eq in Eb. subst id. unfold find_option in Hf. cbn in Hf.
    injection Hf as <-. reflexivity.
  - apply find_option_in in Hf as [Hin Hid]. destruct Hin as [<-|Hin].
    + cbn in Hid. subst id. rewrite jseqb_refl in Eb. discriminate.
    + apply in_map_iff in Hin as (r & <- & Hr). split; [reflexivity|].
      unfold completed_runs in Hr. rewrite <- sort_runs_desc_perm in Hr.
      apply filter_In in Hr as [Hr Hc]. apply andb_prop in Hc as [Hc Hm].
      apply andb_prop in Hc as [Hp Hc]. apply jseqb_eq in Hp.
      exists r. cbn in Hid |- *. split; [exact Hr|]. split; [exact Hid|]. split; [exact Hp|].
      unfold is_completed in Hc. unfold has_model_id in Hm.
      destruct (status r); try discriminate. split; [reflexivity|].
      destruct (model_id r); [reflexivity|discriminate].
Qed.

Lemma getEvalSetupData_options_witness :
  exists project runs,
    find_project fx_db_runs (js "p") = Some project /\
    modelOptions fx_setup =
      mkOption (js "baseline") MBaseline (base_model project)
      :: map (fun r => mkOption (run_id r) MFineTuned
                         (match model_id r with Some m => m | None => [] end)) runs /\
    Permutation runs
      (filter (fun r => jseqb (run_project r) (js "p") && is_completed r && has_model_id r)
              (training_runs fx_db_runs)) /\
    Sorted newest_first runs /\
    valExampleCount fx_setup = List.length (val_examples fx_db_runs (js "p")).
Proof.
  apply getEvalSetupData_options. vm_compute. reflexivity.
Defined.

Lemma getEvalSetupData_resolve_witness :
  exists project, find_project fx_db_runs (js "p") = Some project /\
  if jseqb (js "r2") (js "baseline")
  then mkOption (js "r2") MFineTuned (js "ft-model-2")
       = mkOption (js "baseline") MBaseline (base_model project)
  else is_fine_tuned (mkOption (js "r2") MFineTuned (js "ft-model-2")) = true /\
       exists r, In r (training_runs fx_db_runs) /\ run_id r = js "r2" /\ run_project r = js "p" /\
                 status r = Completed /\
                 model_id r = Some (opt_model_id (mkOption (js "r2") MFineTuned (js "ft-model-2"))).
Proof.
  apply (getEvalSetupData_resolve fx_db_runs (js "p") fx_setup);
    vm_compute; reflexivity.
Defined.

(** ** Extra: a successful evaluation start *)

Lemma gen_loop_rows provider gen_uuid projectId trainingRunId apiKey sp modelA modelB :
  forall exs n recs k,
  gen_loop provider projectId trainingRunId apiKey sp modelA modelB n exs = Ok recs ->
  Forall2 (generated_row provider apiKey sp modelA modelB projectId trainingRunId)
          (rows_of gen_uuid k recs) exs /\
  Forall (fun r => rec_training_run_id r = trainingRunId) recs.
Proof.
  induction exs as [|ex rest IH]; intros n recs k H; simpl in H.
  - injection H as <-. split; constructor.
  - destruct (generateCompletion provider n _ _ _) as [a|e] eqn:Ha; [|discriminate].
    destruct (generateCompletion provider (S n) _ _ _) as [b|e] eqn:Hb; [|discriminate].
    destruct (gen_loop _ _ _ _ _ _ _ (S (S n)) rest) as [recs'|e] eqn:Hr; [|discriminate].
    injection H as <-. destruct (IH _ _ (S k) Hr) as [H1 H2]. simpl. split.
    + constructor; [|exact H1].
      unfold generated_row; cbn. repeat split. exists n, a, b. auto.
    + constructor; [reflexivity|exact H2].
Qed.

Lemma start_ok_rows provider gen_uuid st pid a b id st' :
  startEvaluation provider gen_uuid st pid a b = (StartOk id, st') ->
  exists project apiKey sd modelA modelB new,
    find_project st pid = Some project /\ api_key project = Some apiKey /\
    getEvalSetupData st pid = Ok sd /\
    find_option (modelOptions sd) a = Some modelA /\
    find_option (modelOptions sd) b = Some modelB /\
    id = (if is_fine_tuned modelA then a else b) /\
    (exists r, In r (training_runs st) /\ run_id r = id) /\
    evaluations st' = evaluations st ++ new /\
    Forall2 (generated_row provider apiKey (system_prompt project) modelA modelB pid id)
            new (val_examples st pid) /\
    user st' = user st /\ projects st' = projects st /\ examples st' = examples st /\
    training_runs st' = training_runs st.
Proof.
  unfold startEvaluation; intros H.
  destruct (user st) eqn:Hu; [|discriminate].
  destruct (find_project st pid) as [project|] eqn:Hp; [|discriminate].
  destruct (api_key project) as [[|k0 ks]|] eqn:Hk; try discriminate.
  destruct (val_examples st pid) as [|ex0 exs] eqn:Hv; [discriminate|].
  destruct (getEvalSetupData st pid) as [sd|] eqn:Hs; [|discriminate].
  destruct (find_option _ a) as [modelA|] eqn:HA; [|discriminate].
  destruct (find_option _ b) as [modelB|] eqn:HB; [|discriminate].
  destruct (gen_loop _ _ _ _ _ _ _ _ _) as [recs|e] eqn:Hg; [|discriminate].
  destruct recs as [|r0 recs']; [discriminate|].
  unfold insert_evaluations in H.
  destruct (forallb (fk_ok st) (r0 :: recs')) eqn:Hfk; [|discriminate].
  injection H as <- <-.
  destruct (gen_loop_rows _ gen_uuid _ _ _ _ _ _ _ _ _ (uuid_counter st) Hg) as [Hrows Htr].
  inversion Htr as [|r0' t' Hr0 _]; subst.
  exists project, (k0 :: ks), sd, modelA, modelB, (rows_of gen_uuid (uuid_counter st) (r0 :: recs')).
  do 6 (split; [first [reflexivity|assumption]|]). split.
  - cbn in Hfk. apply andb_prop in Hfk as [Hfk _]. unfold fk_ok in Hfk.
    apply andb_prop in Hfk as [Hfk _]. apply andb_prop in Hfk as [_ Hfk].
    apply existsb_exists in Hfk as (t & Ht & Heq). apply jseqb_eq in Heq.
    exists t. split; [exact Ht|congruence].
  - split; [reflexivity|]. split; [rewrite Hr0; exact Hrows|]. repeat split; exact Hu.
Qed.
(** Extra. A successful [startEvaluation] returns as evaluation id the id
    of model A when A is a fine-tuned option and the id of model B
    otherwise; that id is the id of a training run of the store; the
    evaluations table gains, after its earlier rows, exactly one new row
    per validation example of the project, in order, each filed under
    the project and that run, unscored, with the fine-tuned answer as
    [model_output]; nothing else changes. *)
Theorem startEvaluation_success provider gen_uuid st pid a b id st' :
  startEvaluation provider gen_uuid st pid a b = (StartOk id, st') ->
  exists project apiKey sd modelA modelB new,
    find_project st pid = Some project /\ api_key project = Some apiKey /\
    getEvalSetupData st pid = Ok sd /\
    find_option (modelOptions sd) a = Some modelA /\
    find_option (modelOptions sd) b = Some modelB /\
    id = (if is_fine_tuned modelA then a else b) /\
    (exists r, In r (training_runs st) /\ run_id r = id) /\
    evaluations st' = evaluations st ++ new /\
    Forall2 (generated_row provider apiKey (system_prompt project) modelA modelB pid id)
            new (val_examples st pid) /\
    user st' = user st /\ projects st' = projects st /\ examples st' = examples st /\
    training_runs st' = training_runs st.
Proof. exact (start_ok_rows provider gen_uuid st pid a b id st'). Qed.


Lemma startEvaluation_success_witness :
  exists project apiKey sd modelA modelB new,
    find_project fx_db (js "p") = Some project /\ api_key project = Some apiKey /\
    getEvalSetupData fx_db (js "p") = Ok sd /\
    find_option (modelOptions sd) (js "r1") = Some modelA /\
    find_option (modelOptions sd) (js "baseline") = Some modelB /\
    js "r1" = (if is_fine_tuned modelA then js "r1" else js "baseline") /\
    (exists r, In r (training_runs fx_db) /\ run_id r = js "r1") /\
    evaluations fx_db_evaluated = evaluations fx_db ++ new /\
    Forall2 (generated_row fx_provider apiKey (system_prompt project) modelA modelB (js "p") (js "r1"))
            new (val_examples fx_db (js "p")) /\
    user fx_db_evaluated = user fx_db /\ projects fx_db_evaluated = projects fx_db /\
    examples fx_db_evaluated = examples fx_db /\
    training_runs fx_db_evaluated = training_runs fx_db.
Proof.
  apply (startEvaluation_success fx_provider fx_uuid fx_db (js "p") (js "r1") (js "baseline")).
  vm_compute. reflexivity.
Defined.


Lemma Forall2_Forall_l {A B} (P : A -> B -> Prop) (Q : A -> Prop) l1 l2 :
  (forall x y, P x y -> Q x) -> Forall2 P l1 l2 -> Forall Q l1.
Proof. intros H HF. induction HF; constructor; eauto. Qed.

(** Extra. When both selected models are fine-tuned runs, a successful
    [startEvaluation] files every new row under the run of model A, and
    stores the answers of model B as [baseline_output]: the run of model
    B gets no row of this evaluation, and the base model of the project
    is never called. *)
Theorem startEvaluation_two_fine_tuned provider gen_uuid st pid a b id st' sd modelA modelB :
  startEvaluation provider gen_uuid st pid a b = (StartOk id, st') ->
  getEvalSetupData st pid = Ok sd ->
  find_option (modelOptions sd) a = Some modelA -> find_option (modelOptions sd) b = Some modelB ->
  is_fine_tuned modelA = true -> is_fine_tuned modelB = true ->
  id = a /\
  exists project apiKey new,
    find_project st pid = Some project /\ api_key project = Some apiKey /\
    evaluations st' = evaluations st ++ new /\
    Forall (fun row => training_run_id row = a) new /\
    Forall2 (fun row ex => exists n outA outB,
        generateCompletion provider n (opt_model_id modelA)
          (build_messages (system_prompt project) (input ex)) apiKey = Ok outA /\
        generateCompletion provider (S n) (opt_model_id modelB)
          (build_messages (system_prompt project) (input ex)) apiKey = Ok outB /\
        model_output row = outA /\ baseline_output row = outB)
      new (val_examples st pid).
Proof.
  intros H Hs HA HB FA FB.
  destruct (start_ok_rows _ _ _ _ _ _ _ _ H)
    as (project & apiKey & sd' & mA & mB & new & Hp & Hk & Hs' & HA' & HB' & Hid & _ & He & Hrows & _).
  rewrite Hs in Hs'. injection Hs' as <-. rewrite HA in HA'. injection HA' as <-.
  rewrite HB in HB'. injection HB' as <-. rewrite FA in Hid. subst id.
  assert (BA : is_baseline modelA = false).
  { unfold is_fine_tuned, is_baseline in *. destruct (opt_type modelA); congruence. }
  split; [reflexivity|]. exists project, apiKey, new. split; [exact Hp|]. split; [exact Hk|].
  split; [exact He|]. split.
  - apply (Forall2_Forall_l _ _ _ _ (fun x y (Hxy : generated_row provider apiKey (system_prompt project) modelA modelB pid a x y) => proj1 (proj2 Hxy)) Hrows).
  - revert Hrows. apply Forall2_impl. intros row ex Hr.
    destruct Hr as (_ & _ & _ & _ & _ & _ & _ & n & oA & oB & H1 & H2 & H3 & H4).
    rewrite FA in H3. rewrite BA in H4. exists n, oA, oB. auto.
Qed.


Lemma startEvaluation_two_fine_tuned_witness :
  js "r1" = js "r1" /\
  exists project apiKey new,
    find_project fx_db_runs (js "p") = Some project /\ api_key project = Some apiKey /\
    evaluations fx_db_two = evaluations fx_db_runs ++ new /\
    Forall (fun row => training_run_id row = js "r1") new /\
    Forall2 (fun row ex => exists n outA outB,
        generateCompletion fx_provider n (js "ft-model")
          (build_messages (system_prompt project) (input ex)) apiKey = Ok outA /\
        generateCompletion fx_provider (S n) (js "ft-model-2")
          (build_messages (system_prompt project) (input ex)) apiKey = Ok outB /\
        model_output row = outA /\ baseline_output row = outB)
      new (val_examples fx_db_runs (js "p")).
Proof.
  apply (startEvaluation_two_fine_tuned fx_provider fx_uuid fx_db_runs (js "p") (js "r1") (js "r2")
           (js "r1") fx_db_two fx_setup
           (mkOption (js "r1") MFineTuned (js "ft-model"))
           (mkOption (js "r2") MFineTuned (js "ft-model-2")));
    vm_compute; reflexivity.
Defined.


Section FetchModelsProofs.

Variable lc : jsstr -> jsstr -> Z.

Lemma insert_sorted_perm x l : Permutation (insert_sorted lc x l) (x :: l).
Proof.
  induction l as [|y t IH]; cbn; [reflexivity|].
  destruct (0 <? model_cmp lc y x)%Z; [reflexivity|].
  rewrite IH. apply perm_swap.
Qed.

Lemma sort_models_perm_acc l acc :
  Permutation (fold_left (fun acc x => insert_sorted lc x acc) l acc) (l ++ acc).
Proof.
  revert acc; induction l as [|x l IH]; intro acc; cbn; [reflexivity|].
  rewrite IH, insert_sorted_perm. symmetry; apply Permutation_middle.
Qed.

Lemma sort_models_perm l : Permutation (sort_models lc l) l.
Proof. unfold sort_models. rewrite sort_models_perm_acc, app_nil_r. reflexivity. Qed.

Lemma insert_sorted_rec_split x l : rec_split l -> rec_split (insert_sorted lc x l).
Proof.
  intros (l1 & l2 & -> & H1 & H2).
  destruct (cm_recommended x) eqn:Hx.
  - induction H1 as [|y t Hy Ht IH].
    + destruct l2 as [|y t]; cbn.
      * exists [x], []. repeat constructor; auto.
      * inversion H2 as [|? ? Hy Ht]; subst.
        unfold model_cmp; rewrite Hy, Hx; cbn.
        exists [x], (y :: t). repeat constructor; auto.
    + cbn [app insert_sorted]. destruct (0 <? model_cmp lc y x)%Z.
      * exists (x :: y :: t), l2. repeat constructor; auto.
      * destruct IH as (m1 & m2 & Heq & Hm1 & Hm2). rewrite Heq.
        exists (y :: m1), m2. repeat constructor; auto.
  - exists l1, (insert_sorted lc x l2). split; [|split; [exact H1|]].
    + induction H1 as [|y t Hy _ IH]; [reflexivity|].
      cbn [app insert_sorted]. unfold model_cmp at 1. rewrite Hy, Hx. cbn. f_equal. exact IH.
    + eapply Permutation_Forall; [symmetry; apply insert_sorted_perm|]. constructor; assumption.
Qed.

Lemma sort_models_rec_split l : rec_split (sort_models lc l).
Proof.
  unfold sort_models.
  assert (H : rec_split []) by (exists [], []; repeat constructor).
  revert H. generalize (@nil chat_model). induction l as [|x l IH]; intros acc H; cbn; [exact H|].
  apply IH, insert_sorted_rec_split, H.
Qed.

Hypothesis lc_antisym : forall a b, (0 < lc a b)%Z -> (lc b a <= 0)%Z.

Lemma model_cmp_antisym a b : (0 < model_cmp lc a b)%Z -> (model_cmp lc b a <= 0)%Z.
Proof.
  unfold model_cmp. destruct (cm_recommended a), (cm_recommended b); cbn; try lia. apply lc_antisym.
  apply lc_antisym.
Qed.

Lemma insert_sorted_sorted x l :
  Sorted (fun a b => (model_cmp lc a b <= 0)%Z) l ->
  Sorted (fun a b => (model_cmp lc a b <= 0)%Z) (insert_sorted lc x l).
Proof.
  induction l as [|y t IH]; intro Hs; cbn; [repeat constructor|].
  destruct (0 <? model_cmp lc y x)%Z eqn:Hc.
  - apply Z.ltb_lt, model_cmp_antisym in Hc. constructor; [exact Hs|constructor; exact Hc].
  - apply Z.ltb_ge in Hc. apply Sorted_inv in Hs as [Ht Hh].
    constructor; [apply IH, Ht|].
    destruct t as [|z t']; cbn; [constructor; exact Hc|].
    destruct (0 <? model_cmp lc z x)%Z; constructor; [exact Hc|inversion Hh; assumption].
Qed.

Lemma sort_models_sorted l : Sorted (fun a b => (model_cmp lc a b <= 0)%Z) (sort_models lc l).
Proof.
  unfold sort_models.
  assert (H : Sorted (fun a b => (model_cmp lc a b <= 0)%Z) []) by constructor.
  revert H. generalize (@nil chat_model). induction l as [|x l IH]; intros acc H; cbn; [exact H|].
  apply IH, insert_sorted_sorted, H.
Qed.

End FetchModelsProofs.

Lemma to_chat_model_name tm : tm_id tm <> [] -> cm_display_name (to_chat_model tm) <> [].
Proof.
  intros Hid. unfold to_chat_model; cbn [cm_display_name].
  destruct (truthy (tm_display_name tm)) eqn:Ht.
  - unfold truthy in Ht. destruct (tm_display_name tm) as [[|c d]|]; congruence.
  - destruct (nonempty (last_segment (tm_id tm))) eqn:Hn; [|exact Hid].
    unfold nonempty in Hn. destruct (last_segment (tm_id tm)); congruence.
Qed.

(** Extra. On a successful [/models] response, [fetchModels] returns a
    reordering of the listed models whose id contains [Instruct], [chat]
    or [Chat], each turned into a chat model; every returned model has
    such an id, is marked recommended exactly when its id is one of
    [RECOMMENDED_MODELS], and has a non-empty display name when its id is
    non-empty. *)
Theorem fetchModels_models lc data :
  Permutation (fst (fetchModels lc (Some (true, Some data))))
              (map to_chat_model (List.filter is_chat_model data)) /\
  Forall (fun m =>
      (includes (cm_id m) (js "Instruct") || includes (cm_id m) (js "chat")
       || includes (cm_id m) (js "Chat")) = true /\
      cm_recommended m = existsb (jseqb (cm_id m)) RECOMMENDED_MODELS /\
      (cm_id m <> [] -> cm_display_name m <> []))
    (fst (fetchModels lc (Some (true, Some data)))).
Proof.
  cbn [fetchModels fst]. split; [apply sort_models_perm|].
  eapply Permutation_Forall; [symmetry; apply sort_models_perm|].
  apply Forall_forall. intros m Hm. apply in_map_iff in Hm as (tm & <- & Hin).
  apply filter_In in Hin as [_ Hc]. split; [exact Hc|]. split; [reflexivity|].
  apply to_chat_model_name.
Qed.

(** Extra. Whatever [localeCompare] answers, the models [fetchModels]
    returns list all recommended models before all other ones. *)
Theorem fetchModels_recommended_first lc response :
  exists l1 l2, fst (fetchModels lc response) = l1 ++ l2 /\
    Forall (fun m => cm_recommended m = true) l1 /\
    Forall (fun m => cm_recommended m = false) l2.
Proof.
  destruct response as [[[|] [data|]]|]; cbn [fetchModels fst];
    [apply sort_models_rec_split|..]; exists [], []; repeat constructor.
Qed.

(** Extra. When [localeCompare] never calls both [a] before [b] and [b]
    before [a], each model [fetchModels] returns is ordered before the
    next one by the comparator given to [.sort]. *)
Theorem fetchModels_sorted lc (Hlc : forall a b, (0 < lc a b)%Z -> (lc b a <= 0)%Z) response :
  Sorted (fun a b => (model_cmp lc a b <= 0)%Z) (fst (fetchModels lc response)).
Proof.
  destruct response as [[[|] [data|]]|]; cbn [fetchModels fst]; try constructor.
  apply sort_models_sorted, Hlc.
Qed.

Lemma fx_localeCompare_antisym a b :
  (0 < fx_localeCompare a b)%Z -> (fx_localeCompare b a <= 0)%Z.
Proof.
  revert b; induction a as [|c a IH]; intros [|d b]; cbn; try lia.
  destruct (N.compare c d) eqn:E; try lia.
  - apply N.compare_eq in E; subst d. rewrite N.compare_refl. apply IH.
  - rewrite N.compare_antisym, E. cbn. lia.
Qed.

Lemma fetchModels_sorted_witness :
  Sorted (fun a b => (model_cmp fx_localeCompare a b <= 0)%Z)
    (fst (fetchModels fx_localeCompare (Some (true, Some fx_models)))) /\
  map cm_display_name (fst (fetchModels fx_localeCompare (Some (true, Some fx_models))))
    = [js "Mistral-7B-Instruct-v0.3"; js "Alpha"; js "zeta-chat"].
Proof.
  split.
  - apply (fetchModels_sorted fx_localeCompare fx_localeCompare_antisym (Some (true, Some fx_models))).
  - vm_compute. reflexivity.
Defined.

(** Extra. [handleStartEvaluation] pushes a route only after
    [startEvaluation] succeeded on the two selected, non-empty, distinct
    models, with validation examples and no generation under way; the
    route is [/eval/] followed by the non-empty id returned, and the
    screen stays in its generating state. When it pushes no route,
    either nothing happened (screen and store untouched) or the store is
    the one [startEvaluation] left, an error is shown and the button is
    enabled again. *)
Theorem handleStartEvaluation_outcome provider gen_uuid st pid data s path s' st' :
  handleStartEvaluation provider gen_uuid st pid data s = (path, s', st') ->
  (forall p, path = Some p ->
     exists id, p = js "/eval/" ++ id /\ id <> [] /\
       ui_modelA s <> [] /\ ui_modelB s <> [] /\ ui_modelA s <> ui_modelB s /\
       0 < valExampleCount data /\ ui_isGenerating s = false /\
       startEvaluation provider gen_uuid st pid (ui_modelA s) (ui_modelB s) = (StartOk id, st') /\
       ui_isGenerating s' = true /\ ui_error s' = None) /\
  (path = None ->
     (s' = s /\ st' = st) \/
     (st' = snd (startEvaluation provider gen_uuid st pid (ui_modelA s) (ui_modelB s)) /\
      ui_modelA s' = ui_modelA s /\ ui_modelB s' = ui_modelB s /\
      ui_isGenerating s' = false /\ ui_error s' <> None)).
Proof.
  unfold handleStartEvaluation.
  destruct (canStart data s) eqn:Hc; cbn [negb].
  - destruct (startEvaluation provider gen_uuid st pid (ui_modelA s) (ui_modelB s)) as [res st0] eqn:Hse.
    unfold canStart in Hc. apply andb_prop in Hc as [Hc Hg]. apply andb_prop in Hc as [Hc Hv].
    apply andb_prop in Hc as [Hc Hne]. apply andb_prop in Hc as [Ha Hb].
    destruct res as [id|e].
    + destruct (nonempty id) eqn:Hid; intro H; injection H as <- <- <-.
      * split; [|discriminate]. intros p Hp. injection Hp as <-. exists id.
        unfold nonempty in *. apply negb_true_iff, jseqb_false in Hne.
        apply Nat.ltb_lt in Hv. apply negb_true_iff in Hg.
        repeat split; try assumption; try reflexivity;
          [destruct id|destruct (ui_modelA s)|destruct (ui_modelB s)]; congruence.
      * split; [discriminate|]. intros _. right. repeat split; discriminate.
    + intro H; injection H as <- <- <-. split; [discriminate|]. intros _. right.
      repeat split; discriminate.
  - intro H; injection H as <- <- <-. split; [discriminate|]. intros _. left; split; reflexivity.
Qed.

Lemma handleStartEvaluation_outcome_witness :
  exists id, js "/eval/r1" = js "/eval/" ++ id /\ id <> [] /\
    js "r1" <> [] /\ js "baseline" <> [] /\ js "r1" <> js "baseline" /\
    0 < 2 /\ false = false /\
    startEvaluation fx_provider fx_uuid fx_db (js "p") (js "r1") (js "baseline")
      = (StartOk id, fx_db_evaluated) /\
    true = true /\ @None (option start_error) = None.
Proof.
  apply (handleStartEvaluation_outcome fx_provider fx_uuid fx_db (js "p")
           (mkSetup [] 2 [] None) (mkSetupUi (js "r1") (js "baseline") false None)
           (Some (js "/eval/r1")) (mkSetupUi (js "r1") (js "baseline") true None) fx_db_evaluated);
    [vm_compute; reflexivity|reflexivity].
Defined.

(** Extra. On first display of the setup screen, whenever the project has
    a fine-tuned run, the Model A selector shows that run, yet the
    [Start] handler does nothing: the state holds [modelA = ''] until the
    user picks a model, so no route is pushed and the store is left as it
    is. *)
Theorem initial_setup_never_starts provider gen_uuid st pid data m :
  find is_fine_tuned (modelOptions data) = Some m ->
  shownModelA data initial_setup_ui = opt_id m /\
  handleStartEvaluation provider gen_uuid st pid data initial_setup_ui
    = (None, initial_setup_ui, st).
Proof.
  intros Hf. unfold shownModelA, defaultModelA. rewrite Hf. split; reflexivity.
Qed.

Lemma initial_setup_never_starts_witness :
  shownModelA fx_setup initial_setup_ui = js "r2" /\
  handleStartEvaluation fx_provider fx_uuid fx_db_runs (js "p") fx_setup initial_setup_ui
    = (None, initial_setup_ui, fx_db_runs).
Proof.
  apply (initial_setup_never_starts fx_provider fx_uuid fx_db_runs (js "p") fx_setup
           (mkOption (js "r2") MFineTuned (js "ft-model-2"))). vm_compute. reflexivity.
Defined.




(** Extra. The comparison screen opens on the first item without a
    preference; when every item has one (or there is no item), it opens
    on index 0. *)
Theorem getInitialIndex_first_unscored items :
  (exists it, nth_error items (getInitialIndex items) = Some it /\ is_unscored it = true /\
     forall k y, k < getInitialIndex items -> nth_error items k = Some y -> is_unscored y = false)
  \/ (getInitialIndex items = 0 /\ Forall (fun it => is_unscored it = false) items).
Proof.
  unfold getInitialIndex, findIndex.
  destruct (find_index_from (fun _ item => is_unscored item) 0 items) as [j|] eqn:E.
  - left. apply find_index_from_some in E as (_ & (x & Hx & Hp) & Hb).
    rewrite Nat.sub_0_r in Hx. exists x. split; [exact Hx|]. split; [exact Hp|].
    intros k y Hk Hy. apply (Hb k y); [lia|]. rewrite Nat.sub_0_r. exact Hy.
  - right. split; [reflexivity|]. apply Forall_forall. intros x Hin.
    apply In_nth_error in Hin as [k Hk].
    apply (find_index_from_none _ _ _ E k x); [lia|]. rewrite Nat.sub_0_r. exact Hk.
Qed.
